(** * plot_columns: column-wise plotting on one chart or on stacked subplots

    A shallow embedding of [plot_columns] from [CR2_solutions.py] and the
    properties its specification states about it.

    The function talks to two outside parties: the console ([print]) and the
    plotting library (matplotlib's [plt] and the axes it hands out).  A run is
    modelled by the ordered list of what it asks of them, together with how
    the call ends: by returning [None] or by raising.  The library is a
    parameter: it is a predicate telling which requests it serves and which
    it answers by raising. *)

From stdpp Require Import base list strings pretty.
From Stdlib Require Import Ascii Lia.

(** * Sample data

    Tables of [k] columns over two rows, and the colours 0, 1, 2, ... as the
    random draws; used in the examples at the end. *)

Definition sample_table (k : nat) : list (list nat) := replicate k [0; 1].

Definition sample_rand (i : nat) : nat := i.

(** * The model *)

Section PlotColumns.

(** Table cells are numpy floats and colours are numpy RGB triples; the
    function only passes them on, so both stay abstract. *)
Variables (num colour : Type).

(** A 2-D array is held as the list of its columns: [x.shape[1]] is the
    length of the list and [x[:, i]] is the lookup of column [i]. *)
Local Abbreviation ndarray := (list (list num)).

Definition shape1 (a : ndarray) : nat := length a.

(** ** What the function asks of the outside world *)

(** Keyword arguments are kept as written, name and value. *)
Local Abbreviation kwargs := (list (string * string)).

Inductive call : Type :=
  | PltSubplots (nrows ncols : nat) (figsize : nat * nat)
  | AxSet (ax : nat) (kw : kwargs)
  | AxPlot (ax : nat) (xs ys : list num) (label : string) (color : colour)
  | AxScatter (ax : nat) (xs ys : list num) (label : string) (color : colour)
              (marker : string)
  | AxLegend (ax : nat)
  | PltSubplotsAdjust (kw : kwargs)
  | PltShow.

Inductive event : Type :=
  | Stdout (msg : string)
  | Lib (c : call).

Inductive exn : Type := IndexError | UnboundLocalError | LibraryError.

(** How a call of the function ends, as its caller sees it. *)
Inductive outcome : Type := Returned | Raised (e : exn).

(** Inside the body, control leaves a statement by a [return] or by an
    exception. *)
Inductive stop : Type := Return | Raise (e : exn).

(** ** The effect monad: a log of requests, early exit, and the library *)

Definition M (A : Type) : Type := (call → bool) → list event * (stop + A).

#[local] Instance M_ret : MRet M := λ A a _, ([], inr a).

#[local] Instance M_bind : MBind M := λ A B f m lib,
  match m lib with
  | (t, inl s) => (t, inl s)
  | (t, inr a) => let '(t', r) := f a lib in (t ++ t', r)
  end.

Definition print (msg : string) : M unit := λ _, ([Stdout msg], inr tt).

(** A library request is logged, then served or refused. *)
Definition request (c : call) : M unit := λ lib,
  ([Lib c], if lib c then inr tt else inl (Raise LibraryError)).

Definition raise {A} (e : exn) : M A := λ _, ([], inl (Raise e)).

Definition return_None {A} : M A := λ _, ([], inl Return).

(** [l[i]] for a non-negative [i]: out of range is an [IndexError]. *)
Definition item {A} (l : list A) (i : nat) : M A :=
  match l !! i with
  | Some a => mret a
  | None => raise IndexError
  end.

(** Reading a local variable that no assignment has reached. *)
Definition local {A} (v : option A) : M A :=
  match v with
  | Some a => mret a
  | None => raise UnboundLocalError
  end.

(** ** Text *)

Definition dq : string := String "034"%char EmptyString.

(** [f'Plot {i}'] *)
Definition plot_label (i : nat) : string := "Plot " +:+ pretty i.

Definition fig_type_msg : string :=
  "Please specify a figure type as either " +:+ dq +:+ "single" +:+ dq
  +:+ " or " +:+ dq +:+ "subplots" +:+ dq +:+ ".".

Definition plot_type_msg (i : nat) (tag : string) : string :=
  "Plot " +:+ pretty i +:+ " has the type " +:+ dq +:+ tag +:+ dq
  +:+ "; make sure it is either " +:+ dq +:+ "line" +:+ dq +:+ " or "
  +:+ dq +:+ "scatter" +:+ dq +:+ ".".

(** ** The function *)

Definition markers : list string :=
  ["."; "x"; "s"; "+"; "d"; "v"; "^"; ">"; "<"; "p"].

Definition adjust_kw : kwargs :=
  [("left", "0.08"); ("right", "0.97"); ("bottom", "0.08"); ("top", "0.93");
   ("hspace", "0.3")].

(** [np.random.random(3)] at the pass over column [i]: one draw per pass. *)
Variable rand : nat → colour.

(** [plt.subplots(ax_num, 1)] hands back the one axes when [ax_num] is 1,
    and an array of [ax_num] axes otherwise; axes are named by their place
    in the stack, top first.  [ax[i]] indexes that array. *)
Definition ax_item (ax_num i : nat) : M nat :=
  if decide (i < ax_num) then mret i else raise IndexError.

(** One pass of the loop; it yields the value of [current_ax]. *)
Definition body (ax_num : nat) (x y : ndarray) (plot_type : list string)
    (i : nat) : M nat :=
  current_ax ←
    (if decide (ax_num = 1) then mret 0
     else
       a ← ax_item ax_num i;
       request (AxSet a [("title", plot_label i); ("ylabel", "y")]);;
       mret a);
  let col := rand i in
  tag ← item plot_type i;
  if decide (tag = "line") then
    xs ← item x i;
    ys ← item y i;
    request (AxPlot current_ax xs ys (plot_label i) col);;
    mret current_ax
  else if decide (tag = "scatter") then
    xs ← item x i;
    ys ← item y i;
    m ← item markers i;
    request (AxScatter current_ax xs ys (plot_label i) col m);;
    mret current_ax
  else
    print (plot_type_msg i tag);;
    return_None.

(** [for i in range(plot_num)], threading [current_ax], which is unbound
    until the first pass. *)
Fixpoint loop (ax_num : nat) (x y : ndarray) (plot_type : list string)
    (range : list nat) (current_ax : option nat) : M (option nat) :=
  match range with
  | [] => mret current_ax
  | i :: range' =>
      a ← body ax_num x y plot_type i;
      loop ax_num x y plot_type range' (Some a)
  end.

Definition plot_columns_body (fig_type : string) (x y : ndarray)
    (plot_type : list string) : M unit :=
  let plot_num := shape1 x in
  ax_num ←
    (if decide (fig_type = "single") then mret 1
     else if decide (fig_type = "subplots") then mret plot_num
     else print fig_type_msg;; return_None);
  request (PltSubplots ax_num 1 (10, 5 * ax_num));;
  current_ax ← loop ax_num x y plot_type (seq 0 plot_num) None;
  a ← local current_ax;
  request (AxSet a [("xlabel", "x")]);;
  (if decide (ax_num = 1) then
     request (AxSet a [("title", "x vs. y, column-wise"); ("ylabel", "y")]);;
     if decide (1 < plot_num) then request (AxLegend a) else mret tt
   else
     request (PltSubplotsAdjust adjust_kw));;
  request PltShow.

(** Falling off the end of the body returns [None], as [return] does. *)
Definition ends (r : stop + unit) : outcome :=
  match r with
  | inr _ | inl Return => Returned
  | inl (Raise e) => Raised e
  end.

(** A call: what was asked, in order, and how the call ended. *)
Definition plot_columns (lib : call → bool) (fig_type : string)
    (x y : ndarray) (plot_type : list string) : list event * outcome :=
  let r := plot_columns_body fig_type x y plot_type lib in (r.1, ends r.2).

(** matplotlib, as far as this function can tell: a grid needs at least one
    row, and a trace needs as many ordinates as abscissas. *)
Definition matplotlib (c : call) : bool :=
  match c with
  | PltSubplots nrows _ _ => bool_decide (0 < nrows)
  | AxPlot _ xs ys _ _ => bool_decide (length xs = length ys)
  | AxScatter _ xs ys _ _ _ => bool_decide (length xs = length ys)
  | _ => true
  end.

(** A library that serves whatever it is asked. *)
Definition obliging (c : call) : bool := true.

(** ** Reading a log *)

(** The library raised at none of the requests in the log. *)
Definition served (lib : call → bool) (t : list event) : Prop :=
  ∀ c, Lib c ∈ t → lib c = true.

(** The row counts of the grids of axes asked for. *)
Definition grids (t : list event) : list nat :=
  omap (λ e, match e with Lib (PltSubplots n _ _) => Some n | _ => None end) t.

(** The console output, line by line. *)
Definition printed (t : list event) : list string :=
  omap (λ e, match e with Stdout m => Some m | _ => None end) t.

(** The labels of the traces drawn, line or scatter, in order. *)
Definition drawn (t : list event) : list string :=
  omap (λ e, match e with
             | Lib (AxPlot _ _ _ l _) => Some l
             | Lib (AxScatter _ _ _ l _ _) => Some l
             | _ => None
             end) t.

(** The axes given an x-axis label. *)
Definition xlabelled (t : list event) : list nat :=
  omap (λ e, match e with
             | Lib (AxSet a kw) =>
                 if bool_decide ("xlabel" ∈ kw.*1) then Some a else None
             | _ => None
             end) t.

(** The call ran to its last statement: it showed the figure and returned. *)
Definition completed (r : list event * outcome) : Prop :=
  Lib PltShow ∈ r.1 ∧ r.2 = Returned.

(** [served], as a test. *)
Definition servedb (lib : call → bool) (t : list event) : bool :=
  forallb (λ e, match e with Lib c => lib c | Stdout _ => true end) t.

(** [part] occurs in [s] as a contiguous run of characters. *)
Fixpoint occurs (part s : string) : bool :=
  String.prefix part s ||
  match s with
  | EmptyString => false
  | String _ s' => occurs part s'
  end.

(** The axes that the pass over column [i] draws on. *)
Definition ax_of (ax_num i : nat) : nat := if decide (ax_num = 1) then 0 else i.

(** ** Notions for the proofs *)

(** A computation that goes the same way with any library that serves all
    it asks for. *)
Definition steady {A} (m : M A) : Prop :=
  ∀ lib, served lib (m lib).1 → m lib = m obliging.

Definition title_kw (i : nat) : kwargs :=
  [("title", plot_label i); ("ylabel", "y")].

(** Everything a pass over column [i] can ask for. *)
Inductive pass_event (ax_num : nat) (x y : ndarray) (plot_type : list string)
    (i : nat) : event → Prop :=
  | pass_title :
      ax_num ≠ 1 → i < ax_num →
      pass_event ax_num x y plot_type i (Lib (AxSet i (title_kw i)))
  | pass_line xs ys :
      plot_type !! i = Some "line" → x !! i = Some xs → y !! i = Some ys →
      pass_event ax_num x y plot_type i
        (Lib (AxPlot (ax_of ax_num i) xs ys (plot_label i) (rand i)))
  | pass_scatter xs ys m :
      plot_type !! i = Some "scatter" → x !! i = Some xs → y !! i = Some ys →
      markers !! i = Some m →
      pass_event ax_num x y plot_type i
        (Lib (AxScatter (ax_of ax_num i) xs ys (plot_label i) (rand i) m))
  | pass_print tag :
      plot_type !! i = Some tag → tag ≠ "line" → tag ≠ "scatter" →
      pass_event ax_num x y plot_type i (Stdout (plot_type_msg i tag)).

(** All that a computation asks for satisfies [P], and what it yields, when
    it yields, satisfies [Q]; whatever the library. *)
Definition ensures {A} (m : M A) (P : event → Prop) (Q : A → Prop) : Prop :=
  ∀ lib, (∀ e, e ∈ (m lib).1 → P e) ∧ (∀ a, (m lib).2 = inr a → Q a).

(** [current_ax] after the loop: the axes of the last pass, if any. *)
Definition last_ax (ax_num : nat) (range : list nat) (current_ax : option nat)
    : option nat :=
  match last range with
  | Some i => Some (ax_of ax_num i)
  | None => current_ax
  end.

(** Lines 40-49: the number of axes, when [fig_type] is one of the two. *)
Definition ax_count (fig_type : string) (plot_num : nat) : option nat :=
  if decide (fig_type = "single") then Some 1
  else if decide (fig_type = "subplots") then Some plot_num
  else None.

Definition xlabel_kw : kwargs := [("xlabel", "x")].
Definition single_kw : kwargs :=
  [("title", "x vs. y, column-wise"); ("ylabel", "y")].

(** Lines 98-113: what follows the loop. *)
Definition after_loop (ax_num plot_num : nat) (current_ax : option nat)
    : M unit :=
  a ← local current_ax;
  request (AxSet a xlabel_kw);;
  (if decide (ax_num = 1) then
     request (AxSet a single_kw);;
     if decide (1 < plot_num) then request (AxLegend a) else mret tt
   else
     request (PltSubplotsAdjust adjust_kw));;
  request PltShow.

(** Lines 59-113: what follows the making of the grid. *)
Definition after_grid (ax_num : nat) (x y : ndarray) (plot_type : list string)
    : M unit :=
  loop ax_num x y plot_type (seq 0 (shape1 x)) None
  ≫= after_loop ax_num (shape1 x).

(** Everything the function can ask for once the grid is made. *)
Inductive tail_event (ax_num : nat) (x y : ndarray) (plot_type : list string)
    : event → Prop :=
  | tail_pass i e :
      i < shape1 x → pass_event ax_num x y plot_type i e →
      tail_event ax_num x y plot_type e
  | tail_xlabel :
      0 < shape1 x →
      tail_event ax_num x y plot_type
        (Lib (AxSet (ax_of ax_num (shape1 x - 1)) xlabel_kw))
  | tail_single :
      ax_num = 1 → 0 < shape1 x →
      tail_event ax_num x y plot_type (Lib (AxSet 0 single_kw))
  | tail_legend :
      ax_num = 1 → 1 < shape1 x →
      tail_event ax_num x y plot_type (Lib (AxLegend 0))
  | tail_adjust :
      ax_num ≠ 1 → 0 < shape1 x →
      tail_event ax_num x y plot_type (Lib (PltSubplotsAdjust adjust_kw))
  | tail_show :
      0 < shape1 x → tail_event ax_num x y plot_type (Lib PltShow).

(** The trace the pass over column [i] draws, when it gets to draw one. *)
Definition column_call (ax_num : nat) (x y : ndarray) (plot_type : list string)
    (i : nat) : option call :=
  tag ← plot_type !! i;
  if decide (tag = "line") then
    xs ← x !! i; ys ← y !! i;
    Some (AxPlot (ax_of ax_num i) xs ys (plot_label i) (rand i))
  else if decide (tag = "scatter") then
    xs ← x !! i; ys ← y !! i; m ← markers !! i;
    Some (AxScatter (ax_of ax_num i) xs ys (plot_label i) (rand i) m)
  else None.

(** With more than one axes, each pass first titles its own. *)
Definition pass_titles (ax_num i : nat) : list event :=
  if decide (ax_num = 1) then [] else [Lib (AxSet i (title_kw i))].

(** What is asked for after the loop when all of it is served. *)
Definition finish_log (ax_num plot_num a : nat) : list event :=
  Lib (AxSet a xlabel_kw)
  :: (if decide (ax_num = 1) then
        Lib (AxSet a single_kw)
        :: (if decide (1 < plot_num) then [Lib (AxLegend a)] else [])
      else [Lib (PltSubplotsAdjust adjust_kw)])
  ++ [Lib PltShow].

Definition valid_tag (tag : string) : Prop := tag = "line" ∨ tag = "scatter".

(** Entry [i] of [plot_type] is the first that is neither "line" nor
    "scatter". *)
Definition first_invalid (plot_type : list string) (i : nat) (tag : string)
    : Prop :=
  plot_type !! i = Some tag ∧ ¬ valid_tag tag
  ∧ ∀ j, j < i → ∃ t, plot_type !! j = Some t ∧ valid_tag t.

(** * Properties *)

(** ** The monad, step by step *)

(** Membership in a log written out as conses and appends. *)
Ltac in_log :=
  solve [ assumption
        | apply list_elem_of_here
        | apply list_elem_of_further; in_log
        | apply elem_of_app; left; in_log
        | apply elem_of_app; right; in_log ].

Lemma bind_run {A B} (m : M A) (f : A → M B) lib :
  (m ≫= f) lib =
  match m lib with
  | (t, inl s) => (t, inl s)
  | (t, inr a) => let '(t', r) := f a lib in (t ++ t', r)
  end.
Proof. reflexivity. Qed.

Lemma bind_stop {A B} (m : M A) (f : A → M B) lib t s :
  m lib = (t, inl s) → (m ≫= f) lib = (t, inl s).
Proof. intros E. rewrite bind_run, E. reflexivity. Qed.

Lemma bind_next {A B} (m : M A) (f : A → M B) lib t a :
  m lib = (t, inr a) → (m ≫= f) lib = (t ++ (f a lib).1, (f a lib).2).
Proof. intros E. rewrite bind_run, E. by destruct (f a lib). Qed.

(** ** A call that the library never refuses does not depend on the library *)

Lemma served_app lib t t' : served lib (t ++ t') ↔ served lib t ∧ served lib t'.
Proof.
  unfold served. split.
  - intros H; split; intros c Hc; apply H, elem_of_app; auto.
  - intros [H1 H2] c [?|?]%elem_of_app; auto.
Qed.

Lemma steady_ret {A} (a : A) : steady (mret a).
Proof. by intros lib _. Qed.

Lemma steady_print msg : steady (print msg).
Proof. by intros lib _. Qed.

Lemma steady_raise {A} e : steady (@raise A e).
Proof. by intros lib _. Qed.

Lemma steady_return_None {A} : steady (@return_None A).
Proof. by intros lib _. Qed.

Lemma steady_request c : steady (request c).
Proof.
  intros lib H. unfold request in *; simpl in *.
  rewrite (H c) by in_log. reflexivity.
Qed.

Lemma steady_bind {A B} (m : M A) (f : A → M B) :
  steady m → (∀ a, steady (f a)) → steady (m ≫= f).
Proof.
  intros Hm Hf lib. rewrite !bind_run.
  destruct (m lib) as [t [s|a]] eqn:E; simpl.
  - intros H. rewrite <- (Hm lib), E; [done | by rewrite E].
  - destruct (f a lib) as [t' r] eqn:E'; simpl.
    rewrite served_app. intros [H H'].
    rewrite <- (Hm lib), E by (by rewrite E).
    rewrite <- (Hf a lib), E' by (by rewrite E'). reflexivity.
Qed.

Lemma steady_item {A} (l : list A) i : steady (item l i).
Proof. unfold item. destruct (l !! i); [apply steady_ret | apply steady_raise]. Qed.

Lemma steady_local {A} (v : option A) : steady (local v).
Proof. destruct v; [apply steady_ret | apply steady_raise]. Qed.

Lemma steady_ax_item ax_num i : steady (ax_item ax_num i).
Proof. unfold ax_item. case_decide; [apply steady_ret | apply steady_raise]. Qed.

Ltac steady :=
  repeat first
    [ apply steady_ret | apply steady_print | apply steady_raise
    | apply steady_return_None | apply steady_request | apply steady_item
    | apply steady_local | apply steady_ax_item
    | apply steady_bind; [|intros ?]
    | case_decide ].

Lemma steady_body ax_num x y plot_type i : steady (body ax_num x y plot_type i).
Proof. unfold body. steady. Qed.

Lemma steady_loop ax_num x y plot_type range current_ax :
  steady (loop ax_num x y plot_type range current_ax).
Proof.
  revert current_ax. induction range as [|i range IH]; intros cur; simpl.
  - apply steady_ret.
  - apply steady_bind; [apply steady_body | auto].
Qed.

Lemma steady_plot_columns_body fig_type x y plot_type :
  steady (plot_columns_body fig_type x y plot_type).
Proof. unfold plot_columns_body. steady; apply steady_loop. Qed.

Lemma plot_columns_log lib fig_type x y plot_type :
  (plot_columns lib fig_type x y plot_type).1
  = (plot_columns_body fig_type x y plot_type lib).1.
Proof. reflexivity. Qed.

(** If the library served every request of a call, the call went as it
    would have with a library that serves everything. *)
Lemma plot_columns_served lib fig_type x y plot_type :
  served lib (plot_columns lib fig_type x y plot_type).1 →
  plot_columns lib fig_type x y plot_type
  = plot_columns obliging fig_type x y plot_type.
Proof.
  rewrite plot_columns_log. intros H. unfold plot_columns.
  by rewrite (steady_plot_columns_body _ _ _ _ lib H).
Qed.

(** ** Stepping through a computation *)

Lemma bind_ret {A B} (a : A) (f : A → M B) lib : (mret a ≫= f) lib = f a lib.
Proof. rewrite bind_run. simpl. by destruct (f a lib). Qed.

Lemma bind_assoc {A B C} (m : M A) (f : A → M B) (g : B → M C) lib :
  ((m ≫= f) ≫= g) lib = (m ≫= λ a, f a ≫= g) lib.
Proof.
  rewrite !bind_run. destruct (m lib) as [t [s|a]]; [done|].
  rewrite bind_run. destruct (f a lib) as [t' [s|b]]; [done|].
  destruct (g b lib). by rewrite app_assoc.
Qed.

Lemma bind_raise {A B} e (f : A → M B) lib :
  (raise e ≫= f) lib = ([], inl (Raise e)).
Proof. reflexivity. Qed.

Lemma bind_return_None {A B} (f : A → M B) lib :
  (return_None ≫= f) lib = ([], inl Return).
Proof. reflexivity. Qed.

Lemma bind_print {B} msg (f : unit → M B) lib :
  (print msg ≫= f) lib = (Stdout msg :: (f tt lib).1, (f tt lib).2).
Proof. rewrite bind_run. simpl. by destruct (f tt lib). Qed.

Lemma bind_request {B} c (f : unit → M B) lib :
  (request c ≫= f) lib =
  if lib c then (Lib c :: (f tt lib).1, (f tt lib).2)
  else ([Lib c], inl (Raise LibraryError)).
Proof.
  rewrite bind_run. unfold request. destruct (lib c); [|done].
  by destruct (f tt lib).
Qed.

Lemma bind_item {A B} (l : list A) i (f : A → M B) lib :
  (item l i ≫= f) lib =
  match l !! i with
  | Some a => f a lib
  | None => ([], inl (Raise IndexError))
  end.
Proof. unfold item. destruct (l !! i); [apply bind_ret | done]. Qed.

Lemma bind_local {A B} (v : option A) (f : A → M B) lib :
  (local v ≫= f) lib =
  match v with
  | Some a => f a lib
  | None => ([], inl (Raise UnboundLocalError))
  end.
Proof. destruct v; [apply bind_ret | done]. Qed.

Lemma bind_ax_item {B} ax_num i (f : nat → M B) lib :
  (ax_item ax_num i ≫= f) lib =
  if decide (i < ax_num) then f i lib else ([], inl (Raise IndexError)).
Proof. unfold ax_item. case_decide; [apply bind_ret | done]. Qed.

Lemma loop_app ax_num x y plot_type r1 r2 current_ax lib :
  loop ax_num x y plot_type (r1 ++ r2) current_ax lib
  = (loop ax_num x y plot_type r1 current_ax
     ≫= loop ax_num x y plot_type r2) lib.
Proof.
  revert current_ax. induction r1 as [|i r1 IH]; intros cur; simpl.
  - by rewrite bind_ret.
  - rewrite bind_assoc, !bind_run.
    destruct (body _ _ _ _ _ _) as [t [s|a]]; [done|]. by rewrite IH.
Qed.

(** ** What a computation may ask for, and what it yields *)

Lemma ensures_ret {A} (a : A) P (Q : A → Prop) : Q a → ensures (mret a) P Q.
Proof. intros H lib; split; simpl; [by intros e ?%elem_of_nil | congruence]. Qed.

Lemma ensures_raise {A} e P (Q : A → Prop) : ensures (raise e) P Q.
Proof. intros lib; split; simpl; [by intros ? ?%elem_of_nil | done]. Qed.

Lemma ensures_return_None {A} P (Q : A → Prop) : ensures return_None P Q.
Proof. intros lib; split; simpl; [by intros ? ?%elem_of_nil | done]. Qed.

Lemma ensures_print msg (P : event → Prop) :
  P (Stdout msg) → ensures (print msg) P (λ _, True).
Proof. intros H lib; split; simpl; [by intros ? ->%list_elem_of_singleton | done]. Qed.

Lemma ensures_request c (P : event → Prop) :
  P (Lib c) → ensures (request c) P (λ _, True).
Proof. intros H lib; split; simpl; [by intros ? ->%list_elem_of_singleton | done]. Qed.

Lemma ensures_item {A} (l : list A) i P :
  ensures (item l i) P (λ a, l !! i = Some a).
Proof.
  unfold item. destruct (l !! i); [by apply ensures_ret | apply ensures_raise].
Qed.

Lemma ensures_local {A} (v : option A) P :
  ensures (local v) P (λ a, v = Some a).
Proof. destruct v; [by apply ensures_ret | apply ensures_raise]. Qed.

Lemma ensures_ax_item ax_num i P :
  ensures (ax_item ax_num i) P (λ a, a = i ∧ i < ax_num).
Proof.
  unfold ax_item. case_decide; [by apply ensures_ret | apply ensures_raise].
Qed.

Lemma ensures_bind {A B} (m : M A) (f : A → M B) P Q R :
  ensures m P Q → (∀ a, Q a → ensures (f a) P R) → ensures (m ≫= f) P R.
Proof.
  intros Hm Hf lib. destruct (Hm lib) as [Hm1 Hm2]. rewrite bind_run.
  destruct (m lib) as [t [s|a]]; simpl in *; [by split|].
  destruct (Hf a (Hm2 a eq_refl) lib) as [Hf1 Hf2].
  destruct (f a lib) as [t' r]; simpl in *. split; [|done].
  intros e [?|?]%elem_of_app; auto.
Qed.

Lemma ensures_weaken {A} (m : M A) (P P' : event → Prop) (Q Q' : A → Prop) :
  ensures m P Q → (∀ e, P e → P' e) → (∀ a, Q a → Q' a) → ensures m P' Q'.
Proof. intros H HP HQ lib. destruct (H lib). split; eauto. Qed.

Lemma body_ensures ax_num x y plot_type i :
  ensures (body ax_num x y plot_type i) (pass_event ax_num x y plot_type i)
    (λ a, a = ax_of ax_num i).
Proof.
  unfold body.
  eapply ensures_bind with (Q := λ a, a = ax_of ax_num i).
  { unfold ax_of. case_decide.
    - by apply ensures_ret.
    - eapply ensures_bind; [apply ensures_ax_item|]. intros a [-> ?].
      eapply ensures_bind; [apply ensures_request; by constructor|].
      intros _ _. by apply ensures_ret. }
  intros a ->.
  eapply ensures_bind; [apply ensures_item|]. intros tag Htag.
  repeat case_decide; subst.
  - eapply ensures_bind; [apply ensures_item|]. intros xs Hxs.
    eapply ensures_bind; [apply ensures_item|]. intros ys Hys.
    eapply ensures_bind; [apply ensures_request; by econstructor|].
    intros _ _. by apply ensures_ret.
  - eapply ensures_bind; [apply ensures_item|]. intros xs Hxs.
    eapply ensures_bind; [apply ensures_item|]. intros ys Hys.
    eapply ensures_bind; [apply ensures_item|]. intros m Hm.
    eapply ensures_bind; [apply ensures_request; by econstructor|].
    intros _ _. by apply ensures_ret.
  - eapply ensures_bind; [apply ensures_print; by econstructor|].
    intros _ _. apply ensures_return_None.
Qed.

Lemma loop_ensures ax_num x y plot_type range current_ax :
  ensures (loop ax_num x y plot_type range current_ax)
    (λ e, ∃ i, i ∈ range ∧ pass_event ax_num x y plot_type i e)
    (λ c, c = last_ax ax_num range current_ax).
Proof.
  revert current_ax. induction range as [|i range IH]; intros cur; simpl.
  - by apply ensures_ret.
  - eapply ensures_bind.
    { eapply ensures_weaken; [apply body_ensures| |done].
      intros e He. exists i. split; [left | done]. }
    intros a ->. eapply ensures_weaken; [apply IH| |].
    + intros e (j & ? & ?). exists j. split; [by right | done].
    + intros c ->. unfold last_ax. rewrite last_cons.
      by destruct (last range).
Qed.

(** ** The function, phase by phase *)

Lemma plot_columns_body_valid fig_type x y plot_type ax_num lib :
  ax_count fig_type (shape1 x) = Some ax_num →
  plot_columns_body fig_type x y plot_type lib
  = (request (PltSubplots ax_num 1 (10, 5 * ax_num))
     ≫= λ _, after_grid ax_num x y plot_type) lib.
Proof.
  unfold ax_count, plot_columns_body. intros H.
  destruct (decide (fig_type = "single"));
    [|destruct (decide (fig_type = "subplots"))];
    simplify_eq; by rewrite bind_ret.
Qed.

Lemma plot_columns_body_invalid fig_type x y plot_type lib :
  ax_count fig_type (shape1 x) = None →
  plot_columns_body fig_type x y plot_type lib
  = ([Stdout fig_type_msg], inl Return).
Proof.
  unfold ax_count, plot_columns_body. intros H.
  destruct (decide (fig_type = "single"));
    [|destruct (decide (fig_type = "subplots"))]; simplify_eq.
  by rewrite bind_assoc, bind_print, bind_return_None.
Qed.

Lemma last_ax_seq ax_num n a :
  last_ax ax_num (seq 0 n) None = Some a → 0 < n ∧ a = ax_of ax_num (n - 1).
Proof.
  unfold last_ax. destruct n as [|n]; [done|].
  rewrite seq_S, last_snoc. simpl. intros [= <-].
  split; [lia | f_equal; lia].
Qed.

Lemma after_grid_ensures ax_num x y plot_type :
  ensures (after_grid ax_num x y plot_type)
    (tail_event ax_num x y plot_type) (λ _, True).
Proof.
  unfold after_grid, after_loop.
  eapply ensures_bind.
  { eapply ensures_weaken; [apply loop_ensures| |done].
    intros e (i & [_ ?]%elem_of_seq & ?). econstructor; [|done]. simpl in *. lia. }
  simpl. intros c ->.
  eapply ensures_bind; [apply ensures_local|]. intros a [Hn ->]%last_ax_seq.
  eapply ensures_bind; [apply ensures_request; by constructor|]. intros _ _.
  eapply ensures_bind with (Q := λ _, True);
    [|intros _ _; apply ensures_request; by constructor].
  unfold ax_of. case_decide.
  - eapply ensures_bind; [apply ensures_request; by constructor|]. intros _ _.
    case_decide; [apply ensures_request; by constructor | by apply ensures_ret].
  - apply ensures_request; by constructor.
Qed.

(** ** Reading a log: helper facts *)

Lemma omap_none {A B} (f : A → option B) (l : list A) :
  (∀ a, a ∈ l → f a = None) → omap f l = [].
Proof.
  induction l as [|a l IH]; intros H; simpl; [done|].
  rewrite (H a) by left. apply IH. intros b Hb. apply H. by right.
Qed.

Lemma drawn_app t t' : drawn (t ++ t') = drawn t ++ drawn t'.
Proof. apply omap_app. Qed.

Lemma printed_app t t' : printed (t ++ t') = printed t ++ printed t'.
Proof. apply omap_app. Qed.

Lemma xlabelled_app t t' : xlabelled (t ++ t') = xlabelled t ++ xlabelled t'.
Proof. apply omap_app. Qed.

Lemma grids_tail ax_num x y plot_type t :
  (∀ e, e ∈ t → tail_event ax_num x y plot_type e) → grids t = [].
Proof.
  intros H. apply omap_none. intros e He.
  destruct (H e He) as [i e' _ []| | | | |]; done.
Qed.

Lemma plot_columns_valid lib fig_type x y plot_type ax_num :
  ax_count fig_type (shape1 x) = Some ax_num →
  plot_columns lib fig_type x y plot_type =
  let c := PltSubplots ax_num 1 (10, 5 * ax_num) in
  let r := after_grid ax_num x y plot_type lib in
  if lib c then (Lib c :: r.1, ends r.2) else ([Lib c], Raised LibraryError).
Proof.
  intros H. unfold plot_columns.
  rewrite (plot_columns_body_valid _ _ _ _ _ _ H), bind_request. simpl.
  by destruct (lib _).
Qed.

Lemma plot_columns_grids lib fig_type x y plot_type ax_num :
  ax_count fig_type (shape1 x) = Some ax_num →
  grids (plot_columns lib fig_type x y plot_type).1 = [ax_num].
Proof.
  intros H. rewrite (plot_columns_valid _ _ _ _ _ _ H). simpl.
  destruct (lib _); simpl; [|done]. f_equal.
  eapply grids_tail, after_grid_ensures.
Qed.

(** ** The number of axes, and an invalid [fig_type] *)

(** C1.  With [fig_type] "single" one grid is asked for, of one row, whatever
    the number of columns; with "subplots" one grid is asked for, of as many
    rows as [x] has columns. *)
Theorem C1_axis_count lib x y plot_type :
  grids (plot_columns lib "single" x y plot_type).1 = [1] ∧
  grids (plot_columns lib "subplots" x y plot_type).1 = [shape1 x].
Proof. split; by apply plot_columns_grids. Qed.

(** C3, as the code has it.  A [fig_type] other than "single" and "subplots"
    prints the fixed request for one of the two, which does not repeat the
    value given, and returns: nothing is asked of the plotting library and
    nothing is raised. *)
Theorem C3_invalid_fig_type lib fig_type x y plot_type :
  fig_type ≠ "single" → fig_type ≠ "subplots" →
  plot_columns lib fig_type x y plot_type = ([Stdout fig_type_msg], Returned).
Proof.
  intros H1 H2. unfold plot_columns.
  rewrite plot_columns_body_invalid; [done|].
  unfold ax_count. by repeat case_decide.
Qed.

(** ** A pass that goes through *)

Ltac step :=
  repeat first
    [ rewrite bind_assoc | rewrite bind_ret | rewrite bind_request
    | rewrite bind_item | rewrite bind_print | rewrite bind_local
    | rewrite bind_ax_item | rewrite bind_raise | rewrite bind_return_None ].

Lemma body_inr ax_num x y plot_type i lib t a :
  body ax_num x y plot_type i lib = (t, inr a) →
  ∃ c, column_call ax_num x y plot_type i = Some c
       ∧ t = pass_titles ax_num i ++ [Lib c] ∧ a = ax_of ax_num i.
Proof.
  unfold body, column_call, pass_titles, ax_of.
  repeat (step; simpl; first [case_decide | case_match]); simplify_eq/=;
    step; simpl; try done.
  all: intros; simplify_eq/=; by eexists.
Qed.

Lemma body_served ax_num x y plot_type i c :
  column_call ax_num x y plot_type i = Some c → ax_num = 1 ∨ i < ax_num →
  body ax_num x y plot_type i obliging
  = (pass_titles ax_num i ++ [Lib c], inr (ax_of ax_num i)).
Proof.
  unfold body, column_call, pass_titles, ax_of, obliging.
  intros H [?|?]; revert H.
  all: repeat (step; simpl; first [case_decide | case_match]); simplify_eq/=;
    step; simpl; try done; try lia.
  all: intros; by simplify_eq/=.
Qed.

Lemma body_invalid ax_num x y plot_type i tag :
  plot_type !! i = Some tag → tag ≠ "line" → tag ≠ "scatter" →
  ax_num = 1 ∨ i < ax_num →
  body ax_num x y plot_type i obliging
  = (pass_titles ax_num i ++ [Stdout (plot_type_msg i tag)], inl Return).
Proof.
  unfold body, pass_titles, obliging. intros H ? ? [?|?].
  all: repeat (step; simpl; first [case_decide | case_match]); simplify_eq/=;
    step; simpl; try done; try lia.
Qed.

Lemma body_no_marker ax_num x y plot_type i :
  plot_type !! i = Some "scatter" → markers !! i = None →
  ax_num = 1 ∨ i < ax_num →
  body ax_num x y plot_type i obliging
  = (pass_titles ax_num i, inl (Raise IndexError)).
Proof.
  unfold body, pass_titles, obliging. intros H ? [?|?].
  all: repeat (step; simpl; first [case_decide | case_match]); simplify_eq/=;
    step; simpl; try done; try lia.
Qed.

Lemma column_call_drawn ax_num x y plot_type i c :
  column_call ax_num x y plot_type i = Some c →
  drawn (pass_titles ax_num i ++ [Lib c]) = [plot_label i]
  ∧ printed (pass_titles ax_num i ++ [Lib c]) = []
  ∧ xlabelled (pass_titles ax_num i ++ [Lib c]) = [].
Proof.
  unfold column_call, pass_titles. intros H.
  destruct (plot_type !! i) as [tag|]; simplify_eq/=.
  repeat case_decide; simplify_option_eq; done.
Qed.

(** ** The loop *)

Lemma loop_inr ax_num x y plot_type range current_ax lib t c :
  loop ax_num x y plot_type range current_ax lib = (t, inr c) →
  c = last_ax ax_num range current_ax
  ∧ drawn t = plot_label <$> range ∧ printed t = [] ∧ xlabelled t = []
  ∧ ∀ i, i ∈ range →
      ∃ d, column_call ax_num x y plot_type i = Some d ∧ Lib d ∈ t
           ∧ (ax_num ≠ 1 → Lib (AxSet i (title_kw i)) ∈ t).
Proof.
  revert current_ax t c.
  induction range as [|i range IH]; intros cur t c; simpl.
  - intros [= <- <-]. split_and!; try done. by intros i ?%elem_of_nil.
  - rewrite bind_run.
    destruct (body _ _ _ _ _ _) as [ti [s|a]] eqn:Hi; [done|].
    destruct (loop _ _ _ _ _ _ _) as [t' r] eqn:Ht'. intros [= <- ->].
    apply body_inr in Hi as (d & Hd & -> & ->).
    apply IH in Ht' as (-> & Hdr & Hpr & Hxl & Hin).
    destruct (column_call_drawn _ _ _ _ _ _ Hd) as (Hdr' & Hpr' & Hxl').
    rewrite drawn_app, printed_app, xlabelled_app, Hdr, Hpr, Hxl, Hdr', Hpr', Hxl'.
    split_and!; try done.
    { unfold last_ax. rewrite last_cons. by destruct (last range). }
    intros j [->|Hj]%elem_of_cons.
    + exists d. split_and!; [done|in_log|].
      unfold pass_titles. case_decide; [done|]. intros _. in_log.
    + destruct (Hin j Hj) as (d' & ? & ? & Ht). exists d'.
      split_and!; [done|in_log|]. intros ?. apply elem_of_app. right. auto.
Qed.

Lemma loop_served ax_num x y plot_type range current_ax :
  (∀ i, i ∈ range →
     is_Some (column_call ax_num x y plot_type i) ∧ (ax_num = 1 ∨ i < ax_num)) →
  ∃ t, loop ax_num x y plot_type range current_ax obliging
       = (t, inr (last_ax ax_num range current_ax)).
Proof.
  revert current_ax. induction range as [|i range IH]; intros cur H; simpl.
  - by eexists.
  - destruct (H i) as [[d Hd] Hi]; [by left|].
    destruct (IH (Some (ax_of ax_num i))) as [t Ht].
    { intros j Hj. apply H. by right. }
    rewrite (bind_next _ _ _ _ _ (body_served _ _ _ _ _ _ Hd Hi)), Ht. simpl.
    eexists. f_equal. f_equal. unfold last_ax. rewrite last_cons.
    by destruct (last range).
Qed.

(** The loop leaves at the first pass that does, with the passes before it
    drawn and nothing printed by them. *)
Lemma loop_stops ax_num x y plot_type r1 i r2 current_ax ti s :
  (∀ j, j ∈ r1 →
     is_Some (column_call ax_num x y plot_type j) ∧ (ax_num = 1 ∨ j < ax_num)) →
  body ax_num x y plot_type i obliging = (ti, inl s) →
  ∃ t1, loop ax_num x y plot_type (r1 ++ i :: r2) current_ax obliging
        = (t1 ++ ti, inl s)
        ∧ drawn t1 = plot_label <$> r1 ∧ printed t1 = [].
Proof.
  intros H1 Hi. destruct (loop_served _ _ _ _ _ current_ax H1) as [t1 Ht1].
  exists t1. rewrite loop_app, (bind_next _ _ _ _ _ Ht1). simpl.
  rewrite (bind_stop _ _ _ _ _ Hi). simpl.
  apply loop_inr in Ht1 as (_ & ? & ? & _). done.
Qed.

(** ** After the loop *)

Lemma after_loop_None ax_num plot_num lib :
  after_loop ax_num plot_num None lib = ([], inl (Raise UnboundLocalError)).
Proof. reflexivity. Qed.

Lemma after_loop_served ax_num plot_num a :
  after_loop ax_num plot_num (Some a) obliging
  = (finish_log ax_num plot_num a, inr tt).
Proof.
  unfold after_loop, finish_log, obliging.
  repeat (step; simpl; try case_decide); done.
Qed.

Lemma after_loop_shown ax_num plot_num current_ax lib :
  Lib PltShow ∈ (after_loop ax_num plot_num current_ax lib).1 →
  ∃ a, current_ax = Some a
       ∧ (after_loop ax_num plot_num current_ax lib).1
         = finish_log ax_num plot_num a.
Proof.
  destruct current_ax as [a|]; [|by intros ?%elem_of_nil].
  intros H. exists a. split; [done|]. revert H.
  unfold after_loop, finish_log.
  repeat (step; simpl; first [case_decide | case_match]);
    unfold request; simpl; try done.
  all: intros Hin; repeat (apply elem_of_cons in Hin as [?|Hin]; [done|]).
  all: by apply elem_of_nil in Hin.
Qed.

Lemma pass_event_not_show ax_num x y plot_type i :
  ¬ pass_event ax_num x y plot_type i (Lib PltShow).
Proof. inversion 1. Qed.

(** A call that gets to show the figure went through every pass and through
    all that follows the loop. *)
Lemma shown_inv lib fig_type x y plot_type :
  Lib PltShow ∈ (plot_columns lib fig_type x y plot_type).1 →
  ∃ ax_num t a,
    ax_count fig_type (shape1 x) = Some ax_num
    ∧ 0 < shape1 x ∧ a = ax_of ax_num (shape1 x - 1)
    ∧ loop ax_num x y plot_type (seq 0 (shape1 x)) None lib = (t, inr (Some a))
    ∧ (plot_columns lib fig_type x y plot_type).1
      = Lib (PltSubplots ax_num 1 (10, 5 * ax_num))
        :: t ++ finish_log ax_num (shape1 x) a.
Proof.
  destruct (ax_count fig_type (shape1 x)) as [ax_num|] eqn:Hc.
  2:{ unfold plot_columns. rewrite plot_columns_body_invalid by done.
      simpl. by intros ?%list_elem_of_singleton. }
  rewrite (plot_columns_valid _ _ _ _ _ _ Hc). simpl.
  destruct (lib _); simpl; [|by intros ?%list_elem_of_singleton].
  unfold after_grid. rewrite bind_run.
  destruct (loop_ensures ax_num x y plot_type (seq 0 (shape1 x)) None lib)
    as [Hev _].
  destruct (loop _ _ _ _ _ _ _) as [t [s|c]] eqn:Hl; simpl in *.
  { intros [?|H]%elem_of_cons; [done|].
    destruct (Hev _ H) as (i & _ & []%pass_event_not_show). }
  destruct (after_loop _ _ _ _) as [t' r] eqn:Ha; simpl.
  intros [?|[H|H]%elem_of_app]%elem_of_cons; [done| |].
  { destruct (Hev _ H) as (i & _ & []%pass_event_not_show). }
  pose proof (after_loop_shown ax_num (shape1 x) c lib) as Hs.
  rewrite Ha in Hs. simpl in Hs. destruct (Hs H) as (a & -> & ->).
  apply loop_inr in Hl as Hl'. destruct Hl' as (Hlast & _).
  symmetry in Hlast. apply last_ax_seq in Hlast as [? ->].
  by exists ax_num, t, (ax_of ax_num (shape1 x - 1)).
Qed.

(** ** Text *)

Lemma plot_label_inj i j : plot_label i = plot_label j → i = j.
Proof. unfold plot_label. simpl. intros [= H]. by apply (inj pretty). Qed.

Lemma title_kw_inj i j : title_kw i = title_kw j → i = j.
Proof. unfold title_kw. intros H. apply plot_label_inj. congruence. Qed.

Lemma prefix_app part post : String.prefix part (part +:+ post) = true.
Proof.
  induction part as [|c part IH]; simpl; [by destruct post|].
  destruct (ascii_dec c c); [done | congruence].
Qed.

Lemma occurs_prefix part s : String.prefix part s = true → occurs part s = true.
Proof. destruct s; simpl; intros H; by rewrite H. Qed.

Lemma occurs_append pre part s :
  occurs part s = true → occurs part (pre +:+ s) = true.
Proof.
  intros H. induction pre as [|c pre IH]; [done|].
  change (String c pre +:+ s) with (String c (pre +:+ s)).
  simpl. rewrite IH. apply orb_true_r.
Qed.

Lemma plot_type_msg_names i tag :
  occurs (pretty i) (plot_type_msg i tag) = true
  ∧ occurs tag (plot_type_msg i tag) = true.
Proof.
  unfold plot_type_msg. split.
  - apply occurs_append, occurs_prefix, prefix_app.
  - do 4 apply occurs_append. apply occurs_prefix, prefix_app.
Qed.

(** ** Everything a call can ask for *)

Lemma plot_columns_events lib fig_type x y plot_type e :
  e ∈ (plot_columns lib fig_type x y plot_type).1 →
  (ax_count fig_type (shape1 x) = None ∧ e = Stdout fig_type_msg)
  ∨ ∃ ax_num, ax_count fig_type (shape1 x) = Some ax_num
      ∧ (e = Lib (PltSubplots ax_num 1 (10, 5 * ax_num))
         ∨ tail_event ax_num x y plot_type e).
Proof.
  destruct (ax_count fig_type (shape1 x)) as [ax_num|] eqn:Hc.
  - rewrite (plot_columns_valid _ _ _ _ _ _ Hc). simpl. intros H.
    right. exists ax_num. split; [done|].
    destruct (lib _); simpl in H.
    + apply elem_of_cons in H as [->|H]; [by left|].
      right. by apply (after_grid_ensures ax_num x y plot_type lib).
    + apply list_elem_of_singleton in H as ->. by left.
  - unfold plot_columns. rewrite plot_columns_body_invalid by done. simpl.
    intros ->%list_elem_of_singleton. by left.
Qed.

Lemma ax_count_valid fig_type plot_num :
  fig_type = "single" ∨ fig_type = "subplots" →
  ∃ ax_num, ax_count fig_type plot_num = Some ax_num
            ∧ (ax_num = 1 ∨ ax_num = plot_num).
Proof.
  unfold ax_count. intros [->| ->]; simpl; eauto.
Qed.

Lemma ax_count_Some fig_type plot_num ax_num :
  ax_count fig_type plot_num = Some ax_num →
  (fig_type = "single" ∧ ax_num = 1)
  ∨ (fig_type = "subplots" ∧ ax_num = plot_num).
Proof. unfold ax_count. repeat case_decide; naive_solver. Qed.

(** ** Zero columns *)

(** C9.  With a valid [fig_type] and tables of no columns the call raises:
    the loop body never runs, nothing is drawn and the figure is not shown.
    Unless the library already refuses to make the grid, the error is the
    unbound [current_ax] at the labelling of the x-axis after the loop. *)
Theorem C9_zero_columns lib fig_type x y plot_type :
  fig_type = "single" ∨ fig_type = "subplots" →
  shape1 x = 0 →
  let r := plot_columns lib fig_type x y plot_type in
  (∃ e, r.2 = Raised e)
  ∧ drawn r.1 = [] ∧ (Lib PltShow ∉ r.1)
  ∧ (served lib r.1 → r.2 = Raised UnboundLocalError).
Proof.
  intros Hf Hx r. subst r.
  destruct (ax_count_valid _ (shape1 x) Hf) as (ax_num & Hc & _).
  rewrite (plot_columns_valid _ _ _ _ _ _ Hc). simpl.
  unfold after_grid. rewrite Hx. simpl.
  destruct (lib _) eqn:Hlib; simpl.
  - split_and!; [by eexists|done| |done].
    intros [?|?%elem_of_nil]%elem_of_cons; done.
  - split_and!; [by eexists|done| |].
    + intros [?|?%elem_of_nil]%elem_of_cons; done.
    + intros H. rewrite H in Hlib; [done|left].
Qed.

(** ** One column *)

(** C6.  On a table of one column "subplots" does exactly what "single"
    does: the same requests in the same order and the same ending.  One grid
    of one row is asked for, no per-plot title is set, no margins are
    adjusted, and a call that completes has set the overall title and the
    y-axis label on the one axes. *)
Theorem C6_one_column lib x y plot_type :
  shape1 x = 1 →
  let r := plot_columns lib "subplots" x y plot_type in
  r = plot_columns lib "single" x y plot_type
  ∧ grids r.1 = [1]
  ∧ (∀ a i, Lib (AxSet a (title_kw i)) ∉ r.1)
  ∧ (∀ kw, Lib (PltSubplotsAdjust kw) ∉ r.1)
  ∧ (completed r → Lib (AxSet 0 single_kw) ∈ r.1).
Proof.
  intros Hx r. subst r.
  assert (ax_count "subplots" (shape1 x) = Some 1) as Hc by (by rewrite Hx).
  split_and!.
  - by rewrite (plot_columns_valid _ "subplots" _ _ _ _ Hc),
      (plot_columns_valid _ "single" _ _ _ 1).
  - by apply plot_columns_grids.
  - intros a i [[? _]|(n & Hn & [?|H])]%plot_columns_events; simplify_eq.
    inversion H as [j e _ Hp| | | | |]; simplify_eq.
    inversion Hp; simplify_eq.
  - intros kw [[? _]|(n & Hn & [?|H])]%plot_columns_events; simplify_eq.
    inversion H as [j e _ Hp| | | | |]; simplify_eq.
    inversion Hp.
  - intros [(n & t & a & Hn & _ & -> & _ & ->)%shown_inv _]. simplify_eq.
    unfold finish_log, ax_of. simpl. in_log.
Qed.

(** ** Entries of [plot_type] past the columns *)

Lemma body_ext ax_num x y pt pt' i :
  pt !! i = pt' !! i → body ax_num x y pt i = body ax_num x y pt' i.
Proof. unfold body, item. by intros ->. Qed.

Lemma loop_ext ax_num x y pt pt' range current_ax lib :
  (∀ i, i ∈ range → pt !! i = pt' !! i) →
  loop ax_num x y pt range current_ax lib
  = loop ax_num x y pt' range current_ax lib.
Proof.
  revert current_ax. induction range as [|i range IH]; intros cur H; [done|].
  simpl. rewrite !bind_run, (body_ext _ _ _ pt pt') by (apply H; left).
  destruct (body _ _ _ _ _ _) as [t [s|a]]; [done|].
  rewrite IH; [done|]. intros j Hj. apply H. by right.
Qed.

(** C10.  Only the entries of [plot_type] below the column count are
    consulted: two calls whose [plot_type] agree there, whatever follows and
    however long the lists are, ask for the same things in the same order
    and end the same way. *)
Theorem C10_plot_type_beyond_columns lib fig_type x y pt pt' :
  take (shape1 x) pt = take (shape1 x) pt' →
  plot_columns lib fig_type x y pt = plot_columns lib fig_type x y pt'.
Proof.
  intros H.
  destruct (ax_count fig_type (shape1 x)) as [ax_num|] eqn:Hc.
  - rewrite !(plot_columns_valid _ _ _ _ _ _ Hc). unfold after_grid.
    rewrite !bind_run, (loop_ext _ _ _ pt pt'); [done|].
    intros i [_ Hi]%elem_of_seq. simpl in Hi.
    by rewrite <- (lookup_take_lt pt (shape1 x)), H, lookup_take_lt.
  - unfold plot_columns. by rewrite !plot_columns_body_invalid.
Qed.

(** ** The legend *)

(** C4.  A legend is only ever asked for when [fig_type] is "single" and
    there is more than one column; and a call that completes in that case
    has asked for it, on the one axes. *)
Theorem C4_legend lib fig_type x y plot_type :
  let r := plot_columns lib fig_type x y plot_type in
  (∀ a, Lib (AxLegend a) ∈ r.1 → fig_type = "single" ∧ 1 < shape1 x)
  ∧ (completed r → fig_type = "single" → 1 < shape1 x →
     Lib (AxLegend 0) ∈ r.1).
Proof.
  intros r. subst r. split.
  - intros a [[_ ?]|(n & Hn & [?|H])]%plot_columns_events; simplify_eq.
    inversion H as [j e _ Hp| | | | |]; simplify_eq; [inversion Hp|].
    apply ax_count_Some in Hn as [[? _]|[_ ?]]; [done|lia].
  - intros [(n & t & a & Hn & _ & -> & _ & ->)%shown_inv _] Hf ?.
    apply ax_count_Some in Hn as [[_ ->]|[? _]]; [|congruence].
    unfold finish_log, ax_of. simpl. case_decide; [|lia].
    in_log.
Qed.

(** ** Calls that the library serves *)

Lemma column_call_is_Some ax_num x y plot_type j t :
  plot_type !! j = Some t → valid_tag t →
  j < shape1 x → j < shape1 y → j < 10 ∨ t = "line" →
  is_Some (column_call ax_num x y plot_type j).
Proof.
  intros Ht Hv Hx Hy Hm. unfold column_call. rewrite Ht. simpl.
  apply lookup_lt_is_Some_2 in Hx as [xs ->], Hy as [ys ->].
  destruct Hv as [-> | ->]; simpl; [by eexists|].
  destruct Hm as [Hm|?]; [|done].
  apply (lookup_lt_is_Some_2 markers) in Hm as [m ->]. by eexists.
Qed.

Lemma seq_split n i : i < n → seq 0 n = seq 0 i ++ i :: seq (S i) (n - S i).
Proof.
  intros H. replace n with (i + S (n - S i)) at 1 by lia.
  by rewrite seq_app.
Qed.

Lemma drawn_finish_log ax_num plot_num a :
  drawn (finish_log ax_num plot_num a) = []
  ∧ printed (finish_log ax_num plot_num a) = []
  ∧ xlabelled (finish_log ax_num plot_num a) = [a].
Proof. unfold finish_log. by repeat case_decide. Qed.

Lemma drawn_pass_titles ax_num i :
  drawn (pass_titles ax_num i) = [] ∧ printed (pass_titles ax_num i) = [].
Proof. unfold pass_titles. by case_decide. Qed.

(** The call leaves at the first pass that leaves the loop. *)
Lemma plot_columns_stops fig_type x y plot_type ax_num i tb s :
  ax_count fig_type (shape1 x) = Some ax_num → i < shape1 x →
  (∀ j, j < i → is_Some (column_call ax_num x y plot_type j)) →
  body ax_num x y plot_type i obliging = (tb, inl s) →
  ∃ t1, plot_columns obliging fig_type x y plot_type
        = (Lib (PltSubplots ax_num 1 (10, 5 * ax_num)) :: t1 ++ tb, ends (inl s))
        ∧ drawn t1 = plot_label <$> seq 0 i ∧ printed t1 = [].
Proof.
  intros Hc Hi Hj Hb.
  destruct (loop_stops ax_num x y plot_type (seq 0 i) i
              (seq (S i) (shape1 x - S i)) None tb s) as (t1 & Hl & ? & ?);
    [|done|].
  { intros j [_ ?]%elem_of_seq. split; [apply Hj; lia|].
    apply ax_count_Some in Hc as [[_ ->]|[_ ->]]; [by left | right; lia]. }
  exists t1. split; [|done].
  rewrite (plot_columns_valid _ _ _ _ _ _ Hc). unfold obliging at 1.
  unfold after_grid. by rewrite (seq_split _ _ Hi), (bind_stop _ _ _ _ _ Hl).
Qed.

(** The call completes when every pass draws its trace. *)
Lemma plot_columns_completes fig_type x y plot_type ax_num :
  ax_count fig_type (shape1 x) = Some ax_num → 0 < shape1 x →
  (∀ j, j < shape1 x → is_Some (column_call ax_num x y plot_type j)) →
  ∃ t, plot_columns obliging fig_type x y plot_type
       = (Lib (PltSubplots ax_num 1 (10, 5 * ax_num))
          :: t ++ finish_log ax_num (shape1 x) (ax_of ax_num (shape1 x - 1)),
          Returned)
       ∧ drawn t = plot_label <$> seq 0 (shape1 x) ∧ printed t = [].
Proof.
  intros Hc Hn Hj.
  destruct (loop_served ax_num x y plot_type (seq 0 (shape1 x)) None)
    as [t Hl].
  { intros j [_ ?]%elem_of_seq. split; [apply Hj; lia|].
    apply ax_count_Some in Hc as [[_ ->]|[_ ->]]; [by left | right; lia]. }
  exists t. apply loop_inr in Hl as Hl'. destruct Hl' as (_ & ? & ? & _).
  split; [|done].
  rewrite (plot_columns_valid _ _ _ _ _ _ Hc). unfold obliging at 1.
  unfold after_grid. rewrite (bind_next _ _ _ _ _ Hl).
  assert (last_ax ax_num (seq 0 (shape1 x)) None
          = Some (ax_of ax_num (shape1 x - 1))) as ->.
  { unfold last_ax. destruct (shape1 x) as [|n]; [lia|].
    rewrite seq_S, last_snoc. simpl. do 2 f_equal. lia. }
  by rewrite after_loop_served.
Qed.

(** ** An invalid style tag *)

(** C2.  Let entry [i] of [plot_type] be the first that is neither "line"
    nor "scatter", in a call within the data model otherwise: a valid
    [fig_type], a column [i] in [x], the columns below [i] present in [y]
    and within the ten of the palette; and let the library serve the call.
    The call draws the columns below [i], in order, and no other; it prints
    one line, which names [i] and the tag; that print is the last thing it
    does; and it returns. *)
Theorem C2_invalid_style_tag lib fig_type x y plot_type i tag :
  fig_type = "single" ∨ fig_type = "subplots" →
  i < shape1 x → i ≤ shape1 y → i ≤ 10 →
  first_invalid plot_type i tag →
  served lib (plot_columns lib fig_type x y plot_type).1 →
  let r := plot_columns lib fig_type x y plot_type in
  drawn r.1 = plot_label <$> seq 0 i
  ∧ printed r.1 = [plot_type_msg i tag]
  ∧ occurs (pretty i) (plot_type_msg i tag) = true
  ∧ occurs tag (plot_type_msg i tag) = true
  ∧ last r.1 = Some (Stdout (plot_type_msg i tag))
  ∧ r.2 = Returned.
Proof.
  intros Hf Hi Hy Hx (Htag & Hinv & Hbefore) Hs r. subst r.
  rewrite (plot_columns_served _ _ _ _ _ Hs). clear Hs.
  destruct (ax_count_valid _ (shape1 x) Hf) as (ax_num & Hc & Hax).
  destruct (plot_columns_stops fig_type x y plot_type ax_num i
              (pass_titles ax_num i ++ [Stdout (plot_type_msg i tag)]) Return)
    as (t1 & -> & Hd & Hp); [done|done| | |].
  { intros j Hj. destruct (Hbefore j Hj) as (t & Ht & Hv).
    eapply column_call_is_Some; eauto; lia. }
  { apply body_invalid; [done| | |].
    - intros ->. apply Hinv. by left.
    - intros ->. apply Hinv. by right.
    - destruct Hax as [->| ->]; [by left | by right]. }
  destruct (drawn_pass_titles ax_num i) as [Hd' Hp'].
  destruct (plot_type_msg_names i tag) as [? ?].
  cbn [fst snd]. split_and!; try done.
  - change (drawn (?e :: ?t)) with (drawn t).
    rewrite !drawn_app, Hd, Hd'. simpl. by rewrite app_nil_r.
  - change (printed (?e :: ?t)) with (printed t).
    by rewrite !printed_app, Hp, Hp'.
  - by rewrite app_comm_cons, app_assoc, last_snoc.
Qed.

(** ** The marker palette *)

Lemma markers_NoDup : NoDup markers.
Proof. exact (bool_decide_unpack (NoDup markers) I). Qed.

(** C5.  The palette has ten marker shapes, all different.  A scatter trace
    drawn for column [i] has [i] below ten and uses the shape at index [i];
    so the scatter traces of two different columns of one call differ in
    shape.  In a call that completes, every column tagged "scatter" has its
    scatter trace. *)
Theorem C5_scatter_markers lib fig_type x y plot_type :
  let r := plot_columns lib fig_type x y plot_type in
  length markers = 10 ∧ NoDup markers
  ∧ (∀ a xs ys i c m,
       Lib (AxScatter a xs ys (plot_label i) c m) ∈ r.1 →
       i < 10 ∧ markers !! i = Some m ∧ plot_type !! i = Some "scatter")
  ∧ (∀ a xs ys i c m a' xs' ys' j c' m',
       Lib (AxScatter a xs ys (plot_label i) c m) ∈ r.1 →
       Lib (AxScatter a' xs' ys' (plot_label j) c' m') ∈ r.1 →
       i ≠ j → m ≠ m')
  ∧ (completed r →
     ∀ i, i < shape1 x → plot_type !! i = Some "scatter" →
       ∃ a xs ys m, Lib (AxScatter a xs ys (plot_label i) (rand i) m) ∈ r.1).
Proof.
  intros r. subst r.
  assert (∀ a xs ys i c m,
    Lib (AxScatter a xs ys (plot_label i) c m)
      ∈ (plot_columns lib fig_type x y plot_type).1 →
    i < 10 ∧ markers !! i = Some m ∧ plot_type !! i = Some "scatter") as Hb.
  { intros a xs ys i c m [[_ ?]|(n & Hn & [?|H])]%plot_columns_events;
      simplify_eq.
    inversion H as [j e _ Hp| | | | |]; simplify_eq.
    inversion Hp as [| |? ? ? ? ? ? Hm|]; simplify_eq.
    split_and!; [|done|done]. by apply lookup_lt_Some in Hm. }
  split_and!; [done|apply markers_NoDup|done| |].
  - intros a xs ys i c m a' xs' ys' j c' m' Hi Hj Hne ->.
    apply Hb in Hi as (_ & Hi & _). apply Hb in Hj as (_ & Hj & _).
    apply Hne. by eapply NoDup_lookup; [apply markers_NoDup| |].
  - intros [(n & t & a & Hn & _ & _ & Hl & ->)%shown_inv _] i Hi Hpt.
    apply loop_inr in Hl as (_ & _ & _ & _ & Hin).
    destruct (Hin i) as (d & Hd & Hdt & _); [apply elem_of_seq; lia|].
    unfold column_call in Hd. rewrite Hpt in Hd. simplify_option_eq.
    do 4 eexists. right. apply elem_of_app. by left.
Qed.

(** ** Stacked subplots *)

(** C7.  In a call with "subplots" and more than one column that completes,
    every axes [i] was given its own title, different from the others', and
    a y-axis label; and one x-axis label was set, on the bottom axes. *)
Theorem C7_subplot_labels lib x y plot_type :
  1 < shape1 x →
  let r := plot_columns lib "subplots" x y plot_type in
  completed r →
  (∀ i, i < shape1 x →
     Lib (AxSet i [("title", plot_label i); ("ylabel", "y")]) ∈ r.1)
  ∧ (∀ i j, plot_label i = plot_label j → i = j)
  ∧ xlabelled r.1 = [shape1 x - 1].
Proof.
  intros Hx r. subst r.
  intros [(n & t & a & Hn & _ & -> & Hl & ->)%shown_inv _].
  apply ax_count_Some in Hn as [[? _]|[_ ->]]; [done|].
  apply loop_inr in Hl as (_ & _ & _ & Hxl & Hin).
  split_and!.
  - intros i Hi. destruct (Hin i) as (_ & _ & _ & Ht); [apply elem_of_seq; lia|].
    right. apply elem_of_app. left. apply Ht. lia.
  - apply plot_label_inj.
  - change (xlabelled (?e :: ?t)) with (xlabelled t).
    destruct (drawn_finish_log (shape1 x) (shape1 x)
                (ax_of (shape1 x) (shape1 x - 1))) as (_ & _ & Hf).
    rewrite xlabelled_app, Hxl, Hf. unfold ax_of. case_decide; [lia|done].
Qed.

(** ** More than ten columns *)

Lemma printed_valid_tags lib fig_type x y plot_type :
  fig_type = "single" ∨ fig_type = "subplots" →
  (∀ i, i < shape1 x → ∃ t, plot_type !! i = Some t ∧ valid_tag t) →
  printed (plot_columns lib fig_type x y plot_type).1 = [].
Proof.
  intros Hf Hv. apply omap_none.
  intros [m|c] He; [exfalso|done].
  destruct (ax_count_valid _ (shape1 x) Hf) as (ax_num & Hc & _).
  apply plot_columns_events in He as [[? _]|(n & Hn & [?|H])]; simplify_eq.
  inversion H as [i e Hi Hp| | | | |]; simplify_eq.
  inversion Hp as [| | |tag Ht Hl Hsc]; simplify_eq.
  destruct (Hv i Hi) as (t & ? & [?|?]); simplify_eq.
Qed.

(** C8, as the code has it.  The number of columns is not checked.  In a
    call with more than ten columns, otherwise within the data model (a valid
    [fig_type], tables of the same columns, valid tags) and served by the
    library, nothing is printed.  If no column from the eleventh on is a
    scatter, every column is drawn and the figure is shown.  At the first
    column from the eleventh on that is a scatter the call raises
    [IndexError], the palette having no shape for it, with the columns before
    it drawn. *)
Theorem C8_column_cap_unchecked lib fig_type x y plot_type :
  fig_type = "single" ∨ fig_type = "subplots" →
  10 < shape1 x → shape1 y = shape1 x →
  (∀ i, i < shape1 x → ∃ t, plot_type !! i = Some t ∧ valid_tag t) →
  served lib (plot_columns lib fig_type x y plot_type).1 →
  let r := plot_columns lib fig_type x y plot_type in
  printed r.1 = []
  ∧ ((∀ i, 10 ≤ i → i < shape1 x → plot_type !! i = Some "line") →
     completed r ∧ drawn r.1 = plot_label <$> seq 0 (shape1 x))
  ∧ (∀ i, 10 ≤ i → i < shape1 x → plot_type !! i = Some "scatter" →
       (∀ j, 10 ≤ j → j < i → plot_type !! j = Some "line") →
       r.2 = Raised IndexError ∧ drawn r.1 = plot_label <$> seq 0 i).
Proof.
  intros Hf Hx Hy Hv Hs r. subst r.
  split; [by apply printed_valid_tags|].
  rewrite (plot_columns_served _ _ _ _ _ Hs). clear Hs.
  destruct (ax_count_valid _ (shape1 x) Hf) as (ax_num & Hc & Hax).
  split.
  - intros Hline.
    destruct (plot_columns_completes fig_type x y plot_type ax_num)
      as (t & -> & Hd & _); [done|lia| |].
    { intros j Hj. destruct (Hv j Hj) as (t & Ht & Hvt).
      eapply column_call_is_Some; eauto; [lia|].
      destruct (decide (j < 10)); [by left|right].
      rewrite Hline in Ht by lia. congruence. }
    destruct (drawn_finish_log ax_num (shape1 x)
                (ax_of ax_num (shape1 x - 1))) as (Hd' & _).
    cbn [fst snd]. split.
    + split; [|done]. right. apply elem_of_app. right.
      unfold finish_log. right. apply elem_of_app. right. left.
    + change (drawn (?e :: ?t)) with (drawn t).
      by rewrite drawn_app, Hd, Hd', app_nil_r.
  - intros i Hi Hin Hsc Hline.
    destruct (plot_columns_stops fig_type x y plot_type ax_num i
                (pass_titles ax_num i) (Raise IndexError))
      as (t1 & -> & Hd & _); [done|done| | |].
    { intros j Hj. destruct (Hv j) as (t & Ht & Hvt); [lia|].
      eapply column_call_is_Some; eauto; [lia..|].
      destruct (decide (j < 10)); [by left|right].
      rewrite Hline in Ht by lia. congruence. }
    { apply body_no_marker; [done|by apply lookup_ge_None_2|].
      destruct Hax as [->| ->]; [by left | by right]. }
    destruct (drawn_pass_titles ax_num i) as [Hd' _].
    cbn [fst snd]. split; [done|].
    change (drawn (?e :: ?t)) with (drawn t).
    by rewrite drawn_app, Hd, Hd', app_nil_r.
Qed.

(** ** Checks by computation, for concrete calls *)

Lemma servedb_served lib t : servedb lib t = true → served lib t.
Proof.
  unfold servedb, served. intros H c Hc.
  induction t as [|e t IH]; [by apply elem_of_nil in Hc|].
  simpl in H. apply andb_true_iff in H as [He Ht].
  apply elem_of_cons in Hc as [<-|Hc]; auto.
Qed.

Lemma completed_last r :
  last r.1 = Some (Lib PltShow) → r.2 = Returned → completed r.
Proof.
  intros Hl ?. split; [|done]. destruct r as [t o]. simpl in *.
  induction t as [|e [|e' t] IH]; simplify_eq/=; [left|right; auto].
Qed.

(** * Further properties of [plot_columns] *)

(** ** How a pass, the loop and the rest can end *)

(** A pass that leaves the loop: by the [return] after the diagnostic, by an
    index out of range, or by the library raising. *)
Lemma body_inl ax_num x y plot_type i lib t s :
  body ax_num x y plot_type i lib = (t, inl s) →
  ax_num = 1 ∨ i < ax_num →
  (s = Return
   ∧ ∃ tag, plot_type !! i = Some tag ∧ ¬ valid_tag tag
            ∧ t = pass_titles ax_num i ++ [Stdout (plot_type_msg i tag)])
  ∨ (s = Raise IndexError ∧ t = pass_titles ax_num i
     ∧ (plot_type !! i = None ∨ x !! i = None ∨ y !! i = None
        ∨ (plot_type !! i = Some "scatter" ∧ markers !! i = None)))
  ∨ (s = Raise LibraryError ∧ printed t = []
     ∧ (drawn t = [] ∨ drawn t = [plot_label i])
     ∧ ∃ c, last t = Some (Lib c) ∧ lib c = false).
Proof.
  unfold body, pass_titles, valid_tag. intros H [?|?]; revert H.
  all: repeat (step; simpl; first [case_decide | case_match]); simplify_eq/=;
    step; simpl; try done; try lia.
  all: intros; simplify_eq/=.
  all: try (left; split; [done|]; eexists;
            split_and!; [done|by intros [?|?]|done]).
  all: try (right; left; split_and!; [done|done|];
            first [ by left | by right; left | by right; right; left
                  | by right; right; right ]).
  all: right; right;
    split_and!; [done|done|first [by left | by right]|by eexists].
Qed.

Lemma loop_inl ax_num x y plot_type range current_ax lib t s :
  loop ax_num x y plot_type range current_ax lib = (t, inl s) →
  ∃ r1 i r2 t1 c1 tb,
    range = r1 ++ i :: r2
    ∧ loop ax_num x y plot_type r1 current_ax lib = (t1, inr c1)
    ∧ body ax_num x y plot_type i lib = (tb, inl s)
    ∧ t = t1 ++ tb.
Proof.
  revert current_ax t.
  induction range as [|i range IH]; intros cur t; simpl; [done|].
  rewrite bind_run.
  destruct (body _ _ _ _ _ _) as [ti [s'|a]] eqn:Hi.
  - intros [= <- <-]. by exists [], i, range, [], cur, ti.
  - destruct (loop _ _ _ _ _ _ _) as [t' r] eqn:Ht'. intros [= <- ->].
    apply IH in Ht' as (r1 & j & r2 & t1 & c1 & tb & -> & Hl & Hb & ->).
    exists (i :: r1), j, r2, (ti ++ t1), c1, tb. split_and!; [done| |done|].
    + simpl. by rewrite bind_run, Hi, Hl.
    + by rewrite app_assoc.
Qed.

Lemma seq_middle n r1 i r2 : seq 0 n = r1 ++ i :: r2 → r1 = seq 0 i ∧ i < n.
Proof.
  intros H.
  assert (seq 0 n !! length r1 = Some i) as Hi
    by (rewrite H; apply list_lookup_middle; done).
  apply lookup_seq in Hi as [Hi ?]. simpl in Hi. subst i. split; [|done].
  rewrite <- (take_app_length r1 (length r1 :: r2)) at 1.
  rewrite <- H, take_seq. f_equal. lia.
Qed.

Lemma after_loop_Some ax_num plot_num a lib :
  drawn (after_loop ax_num plot_num (Some a) lib).1 = []
  ∧ printed (after_loop ax_num plot_num (Some a) lib).1 = []
  ∧ ((after_loop ax_num plot_num (Some a) lib).2 = inr tt
     ∨ (after_loop ax_num plot_num (Some a) lib).2 = inl (Raise LibraryError)).
Proof.
  unfold after_loop.
  repeat (step; simpl; first [case_decide | case_match]);
    unfold request; simpl; repeat case_match;
    split_and!; first [done | by left | by right].
Qed.

(** The three ways a call with a valid [fig_type] can go: the library
    refuses the grid; a pass leaves the loop; or the loop runs through and
    what follows it decides. *)
Lemma plot_columns_cases lib fig_type x y plot_type ax_num :
  ax_count fig_type (shape1 x) = Some ax_num →
  let grid := Lib (PltSubplots ax_num 1 (10, 5 * ax_num)) in
  plot_columns lib fig_type x y plot_type = ([grid], Raised LibraryError)
  ∨ (∃ i t1 c1 tb s,
       i < shape1 x
       ∧ loop ax_num x y plot_type (seq 0 i) None lib = (t1, inr c1)
       ∧ body ax_num x y plot_type i lib = (tb, inl s)
       ∧ plot_columns lib fig_type x y plot_type
         = (grid :: t1 ++ tb, ends (inl s)))
  ∨ (∃ t,
       loop ax_num x y plot_type (seq 0 (shape1 x)) None lib
       = (t, inr (last_ax ax_num (seq 0 (shape1 x)) None))
       ∧ plot_columns lib fig_type x y plot_type
         = (grid :: t
              ++ (after_loop ax_num (shape1 x)
                    (last_ax ax_num (seq 0 (shape1 x)) None) lib).1,
            ends (after_loop ax_num (shape1 x)
                    (last_ax ax_num (seq 0 (shape1 x)) None) lib).2)).
Proof.
  intros Hc grid. subst grid. rewrite (plot_columns_valid _ _ _ _ _ _ Hc).
  cbv zeta. destruct (lib _); [|by left]. right.
  unfold after_grid. rewrite bind_run.
  destruct (loop _ _ _ _ _ _ _) as [t [s|c]] eqn:Hl.
  - left. apply loop_inl in Hl as (r1 & i & r2 & t1 & c1 & tb & Hr & Hl & Hb & ->).
    apply seq_middle in Hr as [-> ?]. by exists i, t1, c1, tb, s.
  - right. apply loop_inr in Hl as Hl'. destruct Hl' as [-> _].
    exists t. split; [done|]. by destruct (after_loop _ _ _ _).
Qed.

Lemma body_index_error ax_num x y plot_type i :
  ax_num = 1 ∨ i < ax_num →
  plot_type !! i = None
  ∨ (∃ tag, plot_type !! i = Some tag ∧ valid_tag tag ∧ y !! i = None) →
  body ax_num x y plot_type i obliging
  = (pass_titles ax_num i, inl (Raise IndexError)).
Proof.
  unfold body, pass_titles, obliging, valid_tag.
  intros [Ha|Ha] [Ht|(tag & Ht & [?|?] & Hy)]; revert Ht.
  all: repeat (step; simpl; first [case_decide | case_match]); simplify_eq/=;
    step; simpl; try done; try lia.
  all: intros; by simplify_eq.
Qed.

(** As [plot_columns_stops], keeping the passes before the one that leaves. *)
Lemma plot_columns_stops_at fig_type x y plot_type ax_num i tb s :
  ax_count fig_type (shape1 x) = Some ax_num → i < shape1 x →
  (∀ j, j < i → is_Some (column_call ax_num x y plot_type j)) →
  body ax_num x y plot_type i obliging = (tb, inl s) →
  ∃ t1 c1,
    loop ax_num x y plot_type (seq 0 i) None obliging = (t1, inr c1)
    ∧ plot_columns obliging fig_type x y plot_type
      = (Lib (PltSubplots ax_num 1 (10, 5 * ax_num)) :: t1 ++ tb,
         ends (inl s)).
Proof.
  intros Hc Hi Hj Hb.
  destruct (loop_served ax_num x y plot_type (seq 0 i) None) as [t1 Hl].
  { intros j [_ ?]%elem_of_seq. split; [apply Hj; lia|].
    apply ax_count_Some in Hc as [[_ ->]|[_ ->]]; [by left | right; lia]. }
  exists t1, (last_ax ax_num (seq 0 i) None). split; [done|].
  rewrite (plot_columns_valid _ _ _ _ _ _ Hc). unfold obliging at 1.
  unfold after_grid.
  rewrite (seq_split _ _ Hi), bind_run, loop_app, (bind_next _ _ _ _ _ Hl).
  simpl. by rewrite (bind_stop _ _ _ _ _ Hb).
Qed.

Lemma pass_event_in_range fig_type x ax_num i :
  ax_count fig_type (shape1 x) = Some ax_num → i < shape1 x →
  ax_num = 1 ∨ i < ax_num.
Proof. intros [[_ ->]|[_ ->]]%ax_count_Some ?; [by left | by right]. Qed.

(** A call that asks for the figure to be shown does not end on an index or
    on an unbound variable. *)
Lemma shown_outcome lib fig_type x y plot_type :
  Lib PltShow ∈ (plot_columns lib fig_type x y plot_type).1 →
  (plot_columns lib fig_type x y plot_type).2 = Returned
  ∨ (plot_columns lib fig_type x y plot_type).2 = Raised LibraryError.
Proof.
  intros H. apply shown_inv in H as H'.
  destruct H' as (n & t & a & Hc & Hn & -> & Hl & Hlog).
  destruct (plot_columns_cases lib fig_type x y plot_type n Hc)
    as [E|[(i & t1 & c1 & tb & s & Hi & Hl1 & Hb & E)|(t' & Hl' & E)]].
  - rewrite E in H. by apply list_elem_of_singleton in H.
  - exfalso. rewrite (seq_split _ _ Hi), loop_app, (bind_next _ _ _ _ _ Hl1)
      in Hl.
    simpl in Hl. by rewrite bind_run, Hb in Hl.
  - rewrite E. simpl. rewrite Hl in Hl'. injection Hl' as _ <-.
    destruct (after_loop_Some n (shape1 x) (ax_of n (shape1 x - 1)) lib)
      as (_ & _ & [->| ->]); [by left | by right].
Qed.

(** ** Calls within the data model *)

(** X1.  A call with a valid [fig_type], at least one column, the columns of
    [x] present in [y], and for every column a tag "line" or "scatter", the
    scatters among the first ten, that the library serves: every column is
    drawn, in order; nothing is printed; the figure is shown, last of all;
    and the call returns. *)
Theorem X1_well_formed_call_completes lib fig_type x y plot_type :
  fig_type = "single" ∨ fig_type = "subplots" →
  0 < shape1 x → shape1 x ≤ shape1 y →
  (∀ i, i < shape1 x →
     ∃ t, plot_type !! i = Some t ∧ valid_tag t ∧ (t = "scatter" → i < 10)) →
  served lib (plot_columns lib fig_type x y plot_type).1 →
  let r := plot_columns lib fig_type x y plot_type in
  completed r ∧ last r.1 = Some (Lib PltShow)
  ∧ drawn r.1 = plot_label <$> seq 0 (shape1 x) ∧ printed r.1 = [].
Proof.
  intros Hf Hx Hy Hv Hs r. subst r.
  rewrite (plot_columns_served _ _ _ _ _ Hs). clear Hs.
  destruct (ax_count_valid _ (shape1 x) Hf) as (ax_num & Hc & _).
  destruct (plot_columns_completes fig_type x y plot_type ax_num)
    as (t & -> & Hd & Hp); [done|done| |].
  { intros j Hj. destruct (Hv j Hj) as (t & Ht & Hvt & Hm).
    eapply column_call_is_Some; eauto; [lia|].
    destruct Hvt as [->| ->]; [by right | left; auto]. }
  destruct (drawn_finish_log ax_num (shape1 x)
              (ax_of ax_num (shape1 x - 1))) as (Hd' & Hp' & _).
  cbn [fst snd].
  assert (∀ e l, last (e :: t ++ finish_log ax_num (shape1 x) l)
                 = Some (Lib PltShow)) as Hlast.
  { intros e l. unfold finish_log.
    by rewrite (app_comm_cons _ _ (Lib (AxSet l xlabel_kw))), !app_assoc,
      app_comm_cons, last_snoc. }
  split_and!.
  - apply completed_last; [apply Hlast | done].
  - apply Hlast.
  - change (drawn (?e :: ?t)) with (drawn t).
    by rewrite drawn_app, Hd, Hd', app_nil_r.
  - change (printed (?e :: ?t)) with (printed t).
    by rewrite printed_app, Hp, Hp'.
Qed.

(** ** A style list or a table that runs out *)

(** X2.  When [plot_type] has fewer entries than [x] has columns, its
    entries being valid and the call otherwise as in X1, the call raises
    [IndexError] at the first column without an entry: the columns before it
    are drawn, nothing is printed and the figure is not shown. *)
Theorem X2_short_style_list lib fig_type x y plot_type :
  fig_type = "single" ∨ fig_type = "subplots" →
  length plot_type < shape1 x → length plot_type ≤ shape1 y →
  (∀ i t, plot_type !! i = Some t → valid_tag t ∧ (t = "scatter" → i < 10)) →
  served lib (plot_columns lib fig_type x y plot_type).1 →
  let r := plot_columns lib fig_type x y plot_type in
  r.2 = Raised IndexError
  ∧ drawn r.1 = plot_label <$> seq 0 (length plot_type)
  ∧ printed r.1 = [] ∧ (Lib PltShow ∉ r.1).
Proof.
  intros Hf Hx Hy Hv Hs r. subst r.
  rewrite (plot_columns_served _ _ _ _ _ Hs). clear Hs.
  destruct (ax_count_valid _ (shape1 x) Hf) as (ax_num & Hc & _).
  destruct (plot_columns_stops fig_type x y plot_type ax_num
              (length plot_type) (pass_titles ax_num (length plot_type))
              (Raise IndexError))
    as (t1 & E & Hd & Hp); [done|done| | |].
  { intros j Hj. destruct (lookup_lt_is_Some_2 plot_type j Hj) as [t Ht].
    destruct (Hv j t Ht) as [Hvt Hm].
    eapply column_call_is_Some; eauto; [lia..|].
    destruct Hvt as [->| ->]; [by right | left; auto]. }
  { apply body_index_error; [by eapply pass_event_in_range|].
    left. by apply lookup_ge_None_2. }
  destruct (drawn_pass_titles ax_num (length plot_type)) as [Hd' Hp'].
  split_and!.
  - by rewrite E.
  - rewrite E. cbn [fst]. change (drawn (?e :: ?t)) with (drawn t).
    by rewrite drawn_app, Hd, Hd', app_nil_r.
  - rewrite E. cbn [fst]. change (printed (?e :: ?t)) with (printed t).
    by rewrite printed_app, Hp, Hp'.
  - intros [H|H]%shown_outcome; by rewrite E in H.
Qed.

(** X3.  When [y] has fewer columns than [x], at most ten, and the tags up
    to its width are valid, the call raises [IndexError] at the first column
    that [y] lacks: the columns before it are drawn, nothing is printed and
    the figure is not shown. *)
Theorem X3_y_narrower_than_x lib fig_type x y plot_type :
  fig_type = "single" ∨ fig_type = "subplots" →
  shape1 y < shape1 x → shape1 y ≤ 10 →
  (∀ i, i ≤ shape1 y → ∃ t, plot_type !! i = Some t ∧ valid_tag t) →
  served lib (plot_columns lib fig_type x y plot_type).1 →
  let r := plot_columns lib fig_type x y plot_type in
  r.2 = Raised IndexError
  ∧ drawn r.1 = plot_label <$> seq 0 (shape1 y)
  ∧ printed r.1 = [] ∧ (Lib PltShow ∉ r.1).
Proof.
  intros Hf Hx Hy Hv Hs r. subst r.
  rewrite (plot_columns_served _ _ _ _ _ Hs). clear Hs.
  destruct (ax_count_valid _ (shape1 x) Hf) as (ax_num & Hc & _).
  destruct (plot_columns_stops fig_type x y plot_type ax_num
              (shape1 y) (pass_titles ax_num (shape1 y))
              (Raise IndexError))
    as (t1 & E & Hd & Hp); [done|done| | |].
  { intros j Hj. destruct (Hv j) as (t & Ht & Hvt); [lia|].
    eapply column_call_is_Some; eauto; [lia|]. left. lia. }
  { apply body_index_error; [by eapply pass_event_in_range|].
    right. destruct (Hv (shape1 y)) as (t & Ht & Hvt); [done|].
    exists t. split_and!; [done|done|]. by apply lookup_ge_None_2. }
  destruct (drawn_pass_titles ax_num (shape1 y)) as [Hd' Hp'].
  split_and!.
  - by rewrite E.
  - rewrite E. cbn [fst]. change (drawn (?e :: ?t)) with (drawn t).
    by rewrite drawn_app, Hd, Hd', app_nil_r.
  - rewrite E. cbn [fst]. change (printed (?e :: ?t)) with (printed t).
    by rewrite printed_app, Hp, Hp'.
  - intros [H|H]%shown_outcome; by rewrite E in H.
Qed.

(** ** What is drawn, and where *)

(** X4.  In any call, a line trace is only ever asked for a column [i] of [x]
    tagged "line", a scatter trace for one tagged "scatter"; the trace is
    labelled [Plot i], carries column [i] of [x] against column [i] of [y]
    in the colour drawn at pass [i], and goes on the one axes when
    [fig_type] is "single", on axes [i] when it is "subplots". *)
Theorem X4_trace_of_a_column lib fig_type x y plot_type :
  let r := plot_columns lib fig_type x y plot_type in
  (∀ a xs ys l c,
     Lib (AxPlot a xs ys l c) ∈ r.1 →
     ∃ i, i < shape1 x ∧ plot_type !! i = Some "line" ∧ l = plot_label i
          ∧ x !! i = Some xs ∧ y !! i = Some ys ∧ c = rand i
          ∧ (fig_type = "single" → a = 0) ∧ (fig_type = "subplots" → a = i))
  ∧ (∀ a xs ys l c m,
       Lib (AxScatter a xs ys l c m) ∈ r.1 →
       ∃ i, i < shape1 x ∧ plot_type !! i = Some "scatter" ∧ l = plot_label i
            ∧ x !! i = Some xs ∧ y !! i = Some ys ∧ c = rand i
            ∧ (fig_type = "single" → a = 0)
            ∧ (fig_type = "subplots" → a = i)).
Proof.
  intros r. subst r.
  assert (∀ n i, ax_count fig_type (shape1 x) = Some n → i < shape1 x →
            (fig_type = "single" → ax_of n i = 0)
            ∧ (fig_type = "subplots" → ax_of n i = i)) as Hax.
  { intros n i [[-> ->]|[-> ->]]%ax_count_Some Hi; unfold ax_of;
      (split; [|done || intros _]); try done; case_decide; lia. }
  split.
  - intros a xs ys l c [[_ ?]|(n & Hn & [?|H])]%plot_columns_events;
      simplify_eq.
    inversion H as [i e Hi Hp| | | | |]; simplify_eq.
    inversion Hp; simplify_eq.
    destruct (Hax n i Hn Hi). exists i. by split_and!.
  - intros a xs ys l c m [[_ ?]|(n & Hn & [?|H])]%plot_columns_events;
      simplify_eq.
    inversion H as [i e Hi Hp| | | | |]; simplify_eq.
    inversion Hp; simplify_eq.
    destruct (Hax n i Hn Hi). exists i. by split_and!.
Qed.

Lemma drawn_after_loop ax_num plot_num current_ax lib :
  drawn (after_loop ax_num plot_num current_ax lib).1 = []
  ∧ printed (after_loop ax_num plot_num current_ax lib).1 = [].
Proof.
  destruct current_ax as [a|]; [|done].
  by destruct (after_loop_Some ax_num plot_num a lib) as (? & ? & _).
Qed.

(** X5.  In any call the columns are drawn in their order, from the first
    on, without a gap and none twice: the traces asked for are those of the
    columns below some [k], which is at most the number of columns. *)
Theorem X5_columns_drawn_in_order lib fig_type x y plot_type :
  let r := plot_columns lib fig_type x y plot_type in
  (∃ k, k ≤ shape1 x ∧ drawn r.1 = plot_label <$> seq 0 k)
  ∧ NoDup (drawn r.1).
Proof.
  intros r. subst r.
  assert (∃ k, k ≤ shape1 x
               ∧ drawn (plot_columns lib fig_type x y plot_type).1
                 = plot_label <$> seq 0 k) as (k & Hk & E).
  { destruct (ax_count fig_type (shape1 x)) as [n|] eqn:Hc.
    2:{ exists 0. split; [lia|]. unfold plot_columns.
        by rewrite plot_columns_body_invalid. }
    destruct (plot_columns_cases lib fig_type x y plot_type n Hc)
      as [E|[(i & t1 & c1 & tb & s & Hi & Hl1 & Hb & E)|(t & Hl & E)]];
      rewrite E; cbn [fst].
    - exists 0. split; [lia|done].
    - change (drawn (?e :: ?t)) with (drawn t).
      apply loop_inr in Hl1 as (_ & Hd & _). rewrite drawn_app, Hd.
      destruct (drawn_pass_titles n i) as [Hd' _].
      apply body_inl in Hb
        as [(_ & tag & _ & _ & ->)|[(_ & -> & _)|(_ & _ & [Hb|Hb] & _)]];
        [| | | |by eapply pass_event_in_range].
      + exists i. split; [lia|]. by rewrite drawn_app, Hd', !app_nil_r.
      + exists i. split; [lia|]. by rewrite Hd', app_nil_r.
      + exists i. split; [lia|]. by rewrite Hb, app_nil_r.
      + exists (S i). split; [lia|]. by rewrite Hb, seq_S, fmap_app.
    - change (drawn (?e :: ?t)) with (drawn t).
      apply loop_inr in Hl as (_ & Hd & _).
      destruct (drawn_after_loop n (shape1 x)
                  (last_ax n (seq 0 (shape1 x)) None) lib) as [Hd' _].
      exists (shape1 x). split; [lia|]. by rewrite drawn_app, Hd, Hd', app_nil_r. }
  split; [by exists k|]. rewrite E.
  apply NoDup_fmap_2; [|apply NoDup_seq]. intros i j. apply plot_label_inj.
Qed.

(** ** What is printed *)

Lemma shown_printed lib fig_type x y plot_type :
  Lib PltShow ∈ (plot_columns lib fig_type x y plot_type).1 →
  printed (plot_columns lib fig_type x y plot_type).1 = []
  ∧ drawn (plot_columns lib fig_type x y plot_type).1
    = plot_label <$> seq 0 (shape1 x).
Proof.
  intros (n & t & a & Hc & Hn & -> & Hl & ->)%shown_inv.
  apply loop_inr in Hl as (_ & Hd & Hp & _).
  destruct (drawn_finish_log n (shape1 x) (ax_of n (shape1 x - 1)))
    as (Hd' & Hp' & _).
  change (printed (?e :: ?t)) with (printed t).
  change (drawn (?e :: ?t)) with (drawn t).
  by rewrite printed_app, drawn_app, Hd, Hp, Hd', Hp', !app_nil_r.
Qed.

(** X6.  A call prints at most one line.  When it prints one, that is the
    last thing it does: it returns there, without showing the figure.  The
    line is either the request for a valid [fig_type], [fig_type] being
    neither "single" nor "subplots", or the complaint about the tag of a
    column [i] of [x], that tag being neither "line" nor "scatter". *)
Theorem X6_one_diagnostic_then_return lib fig_type x y plot_type :
  let r := plot_columns lib fig_type x y plot_type in
  printed r.1 = []
  ∨ ∃ msg,
      printed r.1 = [msg] ∧ last r.1 = Some (Stdout msg)
      ∧ r.2 = Returned ∧ (Lib PltShow ∉ r.1)
      ∧ ((msg = fig_type_msg ∧ fig_type ≠ "single" ∧ fig_type ≠ "subplots")
         ∨ ∃ i tag, i < shape1 x ∧ plot_type !! i = Some tag
                    ∧ ¬ valid_tag tag ∧ msg = plot_type_msg i tag).
Proof.
  intros r. subst r.
  destruct (ax_count fig_type (shape1 x)) as [n|] eqn:Hc.
  2:{ right. exists fig_type_msg. unfold plot_columns.
      rewrite plot_columns_body_invalid by done. simpl.
      split_and!; [done|done|done|by intros ?%list_elem_of_singleton|].
      left. unfold ax_count in Hc. by repeat case_decide. }
  destruct (plot_columns_cases lib fig_type x y plot_type n Hc)
    as [E|[(i & t1 & c1 & tb & s & Hi & Hl1 & Hb & E)|(t & Hl & E)]].
  - left. by rewrite E.
  - apply loop_inr in Hl1 as (_ & _ & Hp & _).
    destruct (drawn_pass_titles n i) as [_ Hp'].
    apply body_inl in Hb
      as [(-> & tag & Htag & Hinv & ->)|[(_ & -> & _)|(_ & Hb & _)]];
      [| | |by eapply pass_event_in_range].
    + right. exists (plot_type_msg i tag).
      assert (printed (plot_columns lib fig_type x y plot_type).1
              = [plot_type_msg i tag]) as Hpr.
      { rewrite E. cbn [fst]. change (printed (?e :: ?t)) with (printed t).
        by rewrite !printed_app, Hp, Hp'. }
      split_and!; [done| |by rewrite E| |].
      * rewrite E. cbn [fst]. by rewrite app_comm_cons, app_assoc, last_snoc.
      * intros [Hn _]%shown_printed. by rewrite Hn in Hpr.
      * right. by exists i, tag.
    + left. rewrite E. cbn [fst]. change (printed (?e :: ?t)) with (printed t).
      by rewrite printed_app, Hp, Hp'.
    + left. rewrite E. cbn [fst]. change (printed (?e :: ?t)) with (printed t).
      by rewrite printed_app, Hp, Hb.
  - left. rewrite E. cbn [fst]. change (printed (?e :: ?t)) with (printed t).
    apply loop_inr in Hl as (_ & _ & Hp & _).
    destruct (drawn_after_loop n (shape1 x)
                (last_ax n (seq 0 (shape1 x)) None) lib) as [_ Hp'].
    by rewrite printed_app, Hp, Hp'.
Qed.

(** ** The figure left behind by an invalid tag *)

(** X7.  With "subplots" and more than one column, when the call stops at
    the invalid tag of column [i] (as in C2), the axes up to and including
    [i] have been given their titles, [i] itself before its tag was looked
    at; no axes after [i] has one; no x-axis label has been set; and the
    figure is not shown. *)
Theorem X7_partial_figure lib x y plot_type i tag :
  1 < shape1 x →
  i < shape1 x → i ≤ shape1 y → i ≤ 10 →
  first_invalid plot_type i tag →
  served lib (plot_columns lib "subplots" x y plot_type).1 →
  let r := plot_columns lib "subplots" x y plot_type in
  (∀ j, j ≤ i → Lib (AxSet j (title_kw j)) ∈ r.1)
  ∧ (∀ a j, i < j → Lib (AxSet a (title_kw j)) ∉ r.1)
  ∧ xlabelled r.1 = [] ∧ (Lib PltShow ∉ r.1).
Proof.
  intros Hx Hi Hy Hm (Htag & Hinv & Hbefore) Hs r. subst r.
  rewrite (plot_columns_served _ _ _ _ _ Hs). clear Hs.
  assert (ax_count "subplots" (shape1 x) = Some (shape1 x)) as Hc by done.
  destruct (plot_columns_stops_at "subplots" x y plot_type (shape1 x) i
              (pass_titles (shape1 x) i ++ [Stdout (plot_type_msg i tag)])
              Return)
    as (t1 & c1 & Hl & E); [done|done| | |].
  { intros j Hj. destruct (Hbefore j Hj) as (t & Ht & Hv).
    eapply column_call_is_Some; eauto; lia. }
  { apply body_invalid; [done| | |by right].
    - intros ->. apply Hinv. by left.
    - intros ->. apply Hinv. by right. }
  destruct (loop_ensures (shape1 x) x y plot_type (seq 0 i) None obliging)
    as [Hev _]. rewrite Hl in Hev. simpl in Hev.
  apply loop_inr in Hl as (_ & _ & _ & Hxl & Hin).
  assert (pass_titles (shape1 x) i = [Lib (AxSet i (title_kw i))]) as Hti.
  { unfold pass_titles. case_decide; [lia|done]. }
  rewrite E, Hti. cbn [fst]. split_and!.
  - intros j Hj. destruct (decide (j = i)) as [->|Hne]; [in_log|].
    destruct (Hin j) as (_ & _ & _ & Ht); [apply elem_of_seq; lia|].
    right. apply elem_of_app. left. apply Ht. lia.
  - intros a j Hj [?|[H|H]%elem_of_app]%elem_of_cons; [done| |].
    + destruct (Hev _ H) as (k & [_ Hk]%elem_of_seq & Hp).
      inversion Hp as [? ? E'| | |]; simplify_eq/=. lia.
    + apply elem_of_cons in H as [H|H]; [simplify_eq/=; lia|].
      by apply list_elem_of_singleton in H.
  - change (xlabelled (?e :: ?t)) with (xlabelled t).
    by rewrite xlabelled_app, Hxl.
  - intros [?|[H|H]%elem_of_app]%elem_of_cons; [done| |].
    + destruct (Hev _ H) as (k & _ & []%pass_event_not_show).
    + apply elem_of_cons in H as [H|H]; [done|].
      by apply list_elem_of_singleton in H.
Qed.

(** ** Where the exceptions come from *)

(** X8.  Only a table of no columns leaves [current_ax] unbound: a call that
    raises [UnboundLocalError] was given an [x] without columns. *)
Theorem X8_unbound_only_without_columns lib fig_type x y plot_type :
  (plot_columns lib fig_type x y plot_type).2 = Raised UnboundLocalError →
  shape1 x = 0.
Proof.
  destruct (ax_count fig_type (shape1 x)) as [n|] eqn:Hc.
  2:{ unfold plot_columns. by rewrite plot_columns_body_invalid. }
  destruct (plot_columns_cases lib fig_type x y plot_type n Hc)
    as [E|[(i & t1 & c1 & tb & s & Hi & Hl1 & Hb & E)|(t & Hl & E)]];
    rewrite E; cbn [snd]; [done| |].
  - apply body_inl in Hb
      as [(-> & _)|[(-> & _)|(-> & _)]]; [done..|by eapply pass_event_in_range].
  - destruct (last_ax n (seq 0 (shape1 x)) None) as [a|] eqn:Hlast.
    + by destruct (after_loop_Some n (shape1 x) a lib) as (_ & _ & [->| ->]).
    + intros _. unfold last_ax in Hlast.
      destruct (shape1 x) as [|k]; [done|].
      by rewrite seq_S, last_snoc in Hlast.
Qed.

(** X9.  A call raises [IndexError] only at a column [i] of [x] for which
    [plot_type] has no entry, or [y] no column, or which is a scatter beyond
    the ten markers. *)
Theorem X9_index_error_causes lib fig_type x y plot_type :
  (plot_columns lib fig_type x y plot_type).2 = Raised IndexError →
  ∃ i, i < shape1 x
       ∧ (length plot_type ≤ i ∨ shape1 y ≤ i
          ∨ (plot_type !! i = Some "scatter" ∧ 10 ≤ i)).
Proof.
  destruct (ax_count fig_type (shape1 x)) as [n|] eqn:Hc.
  2:{ unfold plot_columns. by rewrite plot_columns_body_invalid. }
  destruct (plot_columns_cases lib fig_type x y plot_type n Hc)
    as [E|[(i & t1 & c1 & tb & s & Hi & Hl1 & Hb & E)|(t & Hl & E)]];
    rewrite E; cbn [snd]; [done| |].
  - apply body_inl in Hb
      as [(-> & _)|[(-> & _ & Hwhy)|(-> & _)]];
      [done| |done|by eapply pass_event_in_range].
    intros _. exists i. split; [done|].
    destruct Hwhy as [H|[H|[H|[? H]]]].
    + left. by apply lookup_ge_None_1.
    + apply lookup_ge_None_1 in H. unfold shape1 in Hi. lia.
    + right; left. by apply lookup_ge_None_1.
    + right; right. split; [done|]. by apply lookup_ge_None_1 in H.
  - destruct (last_ax n (seq 0 (shape1 x)) None) as [a|].
    + by destruct (after_loop_Some n (shape1 x) a lib) as (_ & _ & [->| ->]).
    + done.
Qed.

(** ** Columns of [y] past those of [x] *)

Lemma body_ext_y ax_num x y y' plot_type i :
  y !! i = y' !! i →
  body ax_num x y plot_type i = body ax_num x y' plot_type i.
Proof. unfold body, item. by intros ->. Qed.

Lemma loop_ext_y ax_num x y y' plot_type range current_ax lib :
  (∀ i, i ∈ range → y !! i = y' !! i) →
  loop ax_num x y plot_type range current_ax lib
  = loop ax_num x y' plot_type range current_ax lib.
Proof.
  revert current_ax. induction range as [|i range IH]; intros cur H; [done|].
  simpl. rewrite !bind_run, (body_ext_y _ _ y y') by (apply H; left).
  destruct (body _ _ _ _ _ _) as [t [s|a]]; [done|].
  rewrite IH; [done|]. intros j Hj. apply H. by right.
Qed.

(** X10.  Only the columns of [y] below the column count of [x] are read:
    two calls whose [y] agree there ask for the same things in the same
    order and end the same way. *)
Theorem X10_y_beyond_columns lib fig_type x y y' plot_type :
  take (shape1 x) y = take (shape1 x) y' →
  plot_columns lib fig_type x y plot_type
  = plot_columns lib fig_type x y' plot_type.
Proof.
  intros H.
  destruct (ax_count fig_type (shape1 x)) as [ax_num|] eqn:Hc.
  - rewrite !(plot_columns_valid _ _ _ _ _ _ Hc). unfold after_grid.
    rewrite !bind_run, (loop_ext_y _ _ y y'); [done|].
    intros i [_ Hi]%elem_of_seq. simpl in Hi.
    by rewrite <- (lookup_take_lt y (shape1 x)), H, lookup_take_lt.
  - unfold plot_columns. by rewrite !plot_columns_body_invalid.
Qed.

(** ** After the loop, by layout *)

(** X11.  Margins are only ever adjusted with "subplots" and more than one
    column, and then with the five values of the source; and a call that
    completes in that case has adjusted them. *)
Theorem X11_margins lib fig_type x y plot_type :
  let r := plot_columns lib fig_type x y plot_type in
  (∀ kw, Lib (PltSubplotsAdjust kw) ∈ r.1 →
     fig_type = "subplots" ∧ 1 < shape1 x ∧ kw = adjust_kw)
  ∧ (completed r → fig_type = "subplots" → 1 < shape1 x →
     Lib (PltSubplotsAdjust adjust_kw) ∈ r.1).
Proof.
  intros r. subst r. split.
  - intros kw [[_ ?]|(n & Hn & [?|H])]%plot_columns_events; simplify_eq.
    inversion H as [j e _ Hp| | | |Hne Hpos|]; simplify_eq; [inversion Hp|].
    apply ax_count_Some in Hn as [[_ ?]|[? ->]]; [done|].
    split_and!; [done|lia|done].
  - intros [(n & t & a & Hn & _ & -> & _ & ->)%shown_inv _] Hf ?.
    apply ax_count_Some in Hn as [[? _]|[_ ->]]; [congruence|].
    unfold finish_log. case_decide; [lia|]. in_log.
Qed.

(** X12.  A call with "single" that completes has set one x-axis label and
    the overall title with the y-axis label, all on the one axes, and has
    given no axes a per-plot title. *)
Theorem X12_single_labels lib x y plot_type :
  let r := plot_columns lib "single" x y plot_type in
  completed r →
  xlabelled r.1 = [0]
  ∧ Lib (AxSet 0 [("title", "x vs. y, column-wise"); ("ylabel", "y")]) ∈ r.1
  ∧ (∀ a i, Lib (AxSet a (title_kw i)) ∉ r.1).
Proof.
  intros r. subst r.
  intros [(n & t & a & Hn & _ & -> & Hl & E)%shown_inv _].
  assert (n = 1) as -> by (by apply ax_count_Some in Hn as [[_ ?]|[? _]]).
  split_and!.
  - rewrite E. apply loop_inr in Hl as (_ & _ & _ & Hxl & _).
    change (xlabelled (?e :: ?t)) with (xlabelled t).
    destruct (drawn_finish_log 1 (shape1 x) (ax_of 1 (shape1 x - 1)))
      as (_ & _ & Hf).
    by rewrite xlabelled_app, Hxl, Hf.
  - rewrite E. unfold finish_log, ax_of. simpl. in_log.
  - intros a i [[? _]|(n & Hn' & [?|H])]%plot_columns_events; simplify_eq.
    inversion H as [j e _ Hp| | | | |]; simplify_eq.
    inversion Hp; simplify_eq.
Qed.

(** ** Showing the figure *)

(** X13.  The figure is shown only once everything else is done: in a call
    that asks for it, that request is the last and the only one of its
    kind, every column has been drawn before it, and nothing was printed. *)
Theorem X13_show_comes_last lib fig_type x y plot_type :
  let r := plot_columns lib fig_type x y plot_type in
  Lib PltShow ∈ r.1 →
  (∃ t, r.1 = t ++ [Lib PltShow] ∧ Lib PltShow ∉ t)
  ∧ drawn r.1 = plot_label <$> seq 0 (shape1 x) ∧ printed r.1 = [].
Proof.
  intros r. subst r. intros H.
  destruct (shown_printed _ _ _ _ _ H) as [Hp Hd]. split; [|done].
  apply shown_inv in H as (n & t & a & Hc & _ & -> & Hl & ->).
  destruct (loop_ensures n x y plot_type (seq 0 (shape1 x)) None lib)
    as [Hev _]. rewrite Hl in Hev. simpl in Hev.
  unfold finish_log.
  eexists. split.
  { by rewrite (app_comm_cons _ _ (Lib (AxSet _ xlabel_kw))), !app_assoc,
      app_comm_cons. }
  intros [?|[Hin|Hin]%elem_of_app]%elem_of_cons; [done| |].
  - destruct (Hev _ Hin) as (k & _ & []%pass_event_not_show).
  - apply elem_of_cons in Hin as [?|Hin]; [done|].
    repeat case_decide;
      repeat (apply elem_of_cons in Hin as [?|Hin]; [done|]);
      by apply elem_of_nil in Hin.
Qed.

End PlotColumns.

Arguments PltSubplots {num colour}.
Arguments AxSet {num colour}.
Arguments AxPlot {num colour}.
Arguments AxScatter {num colour}.
Arguments AxLegend {num colour}.
Arguments PltSubplotsAdjust {num colour}.
Arguments PltShow {num colour}.
Arguments Stdout {num colour}.
Arguments Lib {num colour}.
Arguments shape1 {num}.
Arguments plot_columns {num colour}.
Arguments matplotlib {num colour}.
Arguments served {num colour}.
Arguments servedb {num colour}.
Arguments completed {num colour}.
Arguments grids {num colour}.
Arguments printed {num colour}.
Arguments drawn {num colour}.
Arguments xlabelled {num colour}.

(** * The theorems at work on sample calls *)

Lemma C2_witness :
  let r := plot_columns sample_rand matplotlib "single"
             (sample_table 3) (sample_table 3) ["line"; "scatter"; "zigzag"] in
  drawn r.1 = plot_label <$> seq 0 2
  ∧ printed r.1 = [plot_type_msg 2 "zigzag"]
  ∧ occurs (pretty 2) (plot_type_msg 2 "zigzag") = true
  ∧ occurs "zigzag" (plot_type_msg 2 "zigzag") = true
  ∧ last r.1 = Some (Stdout (plot_type_msg 2 "zigzag"))
  ∧ r.2 = Returned.
Proof.
  apply (C2_invalid_style_tag nat nat sample_rand matplotlib "single"
           (sample_table 3) (sample_table 3) ["line"; "scatter"; "zigzag"]
           2 "zigzag").
  - by left.
  - vm_compute. lia.
  - vm_compute. lia.
  - lia.
  - split_and!; [reflexivity | intros [?|?]; discriminate |].
    intros [|[|j]] Hj; [| |lia]; eexists; (split; [reflexivity|]);
      [by left | by right].
  - apply servedb_served. vm_compute. reflexivity.
Defined.

(** C3, as stated, at the value "grid": no line printed names it. *)
Lemma C3_counterexample :
  let r := plot_columns sample_rand matplotlib "grid"
             (sample_table 2) (sample_table 2) ["line"; "line"] in
  ¬ ∃ msg, Stdout msg ∈ r.1 ∧ occurs "grid" msg = true.
Proof.
  intros r (msg & Hin & Ho). subst r.
  assert (plot_columns sample_rand matplotlib "grid"
            (sample_table 2) (sample_table 2) ["line"; "line"]
          = ([Stdout fig_type_msg], Returned)) as E by (by vm_compute).
  rewrite E in Hin. apply list_elem_of_singleton in Hin. injection Hin as ->.
  vm_compute in Ho. discriminate.
Qed.

Lemma C3_witness :
  plot_columns sample_rand matplotlib "grid"
    (sample_table 2) (sample_table 2) ["line"; "line"]
  = ([Stdout fig_type_msg], Returned).
Proof.
  apply (C3_invalid_fig_type nat nat sample_rand matplotlib "grid"
           (sample_table 2) (sample_table 2) ["line"; "line"]);
    discriminate.
Defined.

Lemma C4_witness :
  Lib (AxLegend 0)
  ∈ (plot_columns sample_rand matplotlib "single"
       (sample_table 2) (sample_table 2) ["line"; "scatter"]).1.
Proof.
  pose proof (C4_legend nat nat sample_rand matplotlib "single"
                (sample_table 2) (sample_table 2) ["line"; "scatter"])
    as [_ H].
  apply H.
  - apply completed_last; vm_compute; reflexivity.
  - reflexivity.
  - vm_compute. lia.
Defined.

Lemma C5_witness :
  ∃ a xs ys m,
    Lib (AxScatter a xs ys (plot_label 1) (sample_rand 1) m)
    ∈ (plot_columns sample_rand matplotlib "subplots"
         (sample_table 3) (sample_table 3) ["line"; "scatter"; "scatter"]).1.
Proof.
  pose proof (C5_scatter_markers nat nat sample_rand matplotlib "subplots"
                (sample_table 3) (sample_table 3)
                ["line"; "scatter"; "scatter"])
    as (_ & _ & _ & _ & H).
  apply H.
  - apply completed_last; vm_compute; reflexivity.
  - vm_compute. lia.
  - reflexivity.
Defined.

Lemma C6_witness :
  let r := plot_columns sample_rand matplotlib "subplots"
             (sample_table 1) (sample_table 1) ["scatter"] in
  r = plot_columns sample_rand matplotlib "single"
        (sample_table 1) (sample_table 1) ["scatter"]
  ∧ grids r.1 = [1]
  ∧ (∀ a i, Lib (AxSet a (title_kw i)) ∉ r.1)
  ∧ (∀ kw, Lib (PltSubplotsAdjust kw) ∉ r.1)
  ∧ (completed r → Lib (AxSet 0 single_kw) ∈ r.1).
Proof.
  apply (C6_one_column nat nat sample_rand matplotlib
           (sample_table 1) (sample_table 1) ["scatter"]).
  reflexivity.
Defined.

Lemma C7_witness :
  let r := plot_columns sample_rand matplotlib "subplots"
             (sample_table 3) (sample_table 3) ["line"; "scatter"; "line"] in
  (∀ i, i < 3 →
     Lib (AxSet i [("title", plot_label i); ("ylabel", "y")]) ∈ r.1)
  ∧ (∀ i j, plot_label i = plot_label j → i = j)
  ∧ xlabelled r.1 = [2].
Proof.
  apply (C7_subplot_labels nat nat sample_rand matplotlib
           (sample_table 3) (sample_table 3) ["line"; "scatter"; "line"]).
  - vm_compute. lia.
  - apply completed_last; vm_compute; reflexivity.
Defined.

(** C8, as stated, at eleven columns: with lines only every column is
    plotted and the figure shown; with scatters only the eleventh column
    raises after ten are drawn; neither call prints anything. *)
Lemma C8_counterexample :
  let lines := plot_columns sample_rand matplotlib "single"
                 (sample_table 11) (sample_table 11) (replicate 11 "line") in
  let scatters := plot_columns sample_rand matplotlib "single"
                 (sample_table 11) (sample_table 11) (replicate 11 "scatter") in
  (printed lines.1 = [] ∧ drawn lines.1 = plot_label <$> seq 0 11
   ∧ last lines.1 = Some (Lib PltShow) ∧ lines.2 = Returned)
  ∧ (printed scatters.1 = [] ∧ drawn scatters.1 = plot_label <$> seq 0 10
     ∧ scatters.2 = Raised IndexError).
Proof. by vm_compute. Qed.

Lemma C8_witness :
  let r := plot_columns sample_rand matplotlib "subplots"
             (sample_table 12) (sample_table 12)
             (replicate 10 "scatter" ++ ["line"; "scatter"]) in
  printed r.1 = []
  ∧ ((∀ i, 10 ≤ i → i < 12 →
        (replicate 10 "scatter" ++ ["line"; "scatter"]) !! i = Some "line") →
     completed r ∧ drawn r.1 = plot_label <$> seq 0 12)
  ∧ (∀ i, 10 ≤ i → i < 12 →
       (replicate 10 "scatter" ++ ["line"; "scatter"]) !! i = Some "scatter" →
       (∀ j, 10 ≤ j → j < i →
          (replicate 10 "scatter" ++ ["line"; "scatter"]) !! j = Some "line") →
       r.2 = Raised IndexError ∧ drawn r.1 = plot_label <$> seq 0 i).
Proof.
  apply (C8_column_cap_unchecked nat nat sample_rand matplotlib "subplots"
           (sample_table 12) (sample_table 12)
           (replicate 10 "scatter" ++ ["line"; "scatter"])).
  - by right.
  - vm_compute. lia.
  - reflexivity.
  - intros i Hi. vm_compute in Hi.
    do 12 (destruct i as [|i];
           [eexists; split; [reflexivity|]; first [by left | by right]|]).
    lia.
  - apply servedb_served. vm_compute. reflexivity.
Defined.

Lemma C9_witness :
  let r := plot_columns sample_rand matplotlib "single"
             (sample_table 0) (sample_table 0) [] in
  (∃ e, r.2 = Raised e)
  ∧ drawn r.1 = [] ∧ (Lib PltShow ∉ r.1)
  ∧ (served matplotlib r.1 → r.2 = Raised UnboundLocalError).
Proof.
  apply (C9_zero_columns nat nat sample_rand matplotlib "single"
           (sample_table 0) (sample_table 0) []).
  - by left.
  - reflexivity.
Defined.

Lemma C10_witness :
  plot_columns sample_rand matplotlib "single"
    (sample_table 1) (sample_table 1) ["line"]
  = plot_columns sample_rand matplotlib "single"
      (sample_table 1) (sample_table 1) ["line"; "zigzag"; "scatter"].
Proof.
  apply (C10_plot_type_beyond_columns nat nat sample_rand matplotlib "single"
           (sample_table 1) (sample_table 1)
           ["line"] ["line"; "zigzag"; "scatter"]).
  reflexivity.
Defined.

(** * The further properties at work on sample calls *)

Lemma X1_witness :
  let r := plot_columns sample_rand matplotlib "subplots"
             (sample_table 3) (sample_table 3) ["line"; "scatter"; "line"] in
  completed r ∧ last r.1 = Some (Lib PltShow)
  ∧ drawn r.1 = plot_label <$> seq 0 3 ∧ printed r.1 = [].
Proof.
  apply (X1_well_formed_call_completes nat nat sample_rand matplotlib
           "subplots" (sample_table 3) (sample_table 3)
           ["line"; "scatter"; "line"]).
  - by right.
  - vm_compute. lia.
  - vm_compute. lia.
  - intros i Hi. vm_compute in Hi.
    do 3 (destruct i as [|i];
          [eexists; split_and!;
             [reflexivity | first [by left | by right] | intros; lia]|]).
    lia.
  - apply servedb_served. vm_compute. reflexivity.
Defined.

Lemma X2_witness :
  let r := plot_columns sample_rand matplotlib "single"
             (sample_table 3) (sample_table 3) ["scatter"; "line"] in
  r.2 = Raised IndexError
  ∧ drawn r.1 = plot_label <$> seq 0 2
  ∧ printed r.1 = [] ∧ (Lib PltShow ∉ r.1).
Proof.
  apply (X2_short_style_list nat nat sample_rand matplotlib "single"
           (sample_table 3) (sample_table 3) ["scatter"; "line"]).
  - by left.
  - vm_compute. lia.
  - vm_compute. lia.
  - intros i t Ht.
    do 2 (destruct i as [|i];
          [injection Ht as <-; split; [first [by left | by right]|intros; lia]|]).
    discriminate.
  - apply servedb_served. vm_compute. reflexivity.
Defined.

Lemma X3_witness :
  let r := plot_columns sample_rand matplotlib "subplots"
             (sample_table 3) (sample_table 1) ["line"; "scatter"; "line"] in
  r.2 = Raised IndexError
  ∧ drawn r.1 = plot_label <$> seq 0 1
  ∧ printed r.1 = [] ∧ (Lib PltShow ∉ r.1).
Proof.
  apply (X3_y_narrower_than_x nat nat sample_rand matplotlib "subplots"
           (sample_table 3) (sample_table 1) ["line"; "scatter"; "line"]).
  - by right.
  - vm_compute. lia.
  - vm_compute. lia.
  - intros i Hi. vm_compute in Hi.
    do 2 (destruct i as [|i];
          [eexists; split; [reflexivity | first [by left | by right]]|]).
    lia.
  - apply servedb_served. vm_compute. reflexivity.
Defined.

Lemma X7_witness :
  let r := plot_columns sample_rand matplotlib "subplots"
             (sample_table 4) (sample_table 4)
             ["line"; "scatter"; "zigzag"; "line"] in
  (∀ j, j ≤ 2 → Lib (AxSet j (title_kw j)) ∈ r.1)
  ∧ (∀ a j, 2 < j → Lib (AxSet a (title_kw j)) ∉ r.1)
  ∧ xlabelled r.1 = [] ∧ (Lib PltShow ∉ r.1).
Proof.
  apply (X7_partial_figure nat nat sample_rand matplotlib
           (sample_table 4) (sample_table 4)
           ["line"; "scatter"; "zigzag"; "line"] 2 "zigzag").
  - vm_compute. lia.
  - vm_compute. lia.
  - vm_compute. lia.
  - lia.
  - split_and!; [reflexivity | intros [?|?]; discriminate |].
    intros [|[|j]] Hj; [| |lia]; eexists; (split; [reflexivity|]);
      [by left | by right].
  - apply servedb_served. vm_compute. reflexivity.
Defined.

Lemma X8_witness : shape1 (sample_table 0) = 0.
Proof.
  apply (X8_unbound_only_without_columns nat nat sample_rand matplotlib
           "single" (sample_table 0) (sample_table 0) []).
  reflexivity.
Defined.

Lemma X9_witness :
  ∃ i, i < shape1 (sample_table 11)
       ∧ (length (replicate 11 "scatter") ≤ i ∨ shape1 (sample_table 11) ≤ i
          ∨ (replicate 11 "scatter" !! i = Some "scatter" ∧ 10 ≤ i)).
Proof.
  apply (X9_index_error_causes nat nat sample_rand matplotlib "single"
           (sample_table 11) (sample_table 11) (replicate 11 "scatter")).
  vm_compute. reflexivity.
Defined.

Lemma X10_witness :
  plot_columns sample_rand matplotlib "single"
    (sample_table 2) (sample_table 2) ["line"; "scatter"]
  = plot_columns sample_rand matplotlib "single"
      (sample_table 2) (sample_table 2 ++ [[7]; [8; 9]]) ["line"; "scatter"].
Proof.
  apply (X10_y_beyond_columns nat nat sample_rand matplotlib "single"
           (sample_table 2) (sample_table 2) (sample_table 2 ++ [[7]; [8; 9]])
           ["line"; "scatter"]).
  reflexivity.
Defined.

Lemma X11_witness :
  Lib (PltSubplotsAdjust adjust_kw)
  ∈ (plot_columns sample_rand matplotlib "subplots"
       (sample_table 2) (sample_table 2) ["line"; "scatter"]).1.
Proof.
  pose proof (X11_margins nat nat sample_rand matplotlib "subplots"
                (sample_table 2) (sample_table 2) ["line"; "scatter"])
    as [_ H].
  apply H.
  - apply completed_last; vm_compute; reflexivity.
  - reflexivity.
  - vm_compute. lia.
Defined.

Lemma X12_witness :
  let r := plot_columns sample_rand matplotlib "single"
             (sample_table 3) (sample_table 3) ["line"; "scatter"; "line"] in
  xlabelled r.1 = [0]
  ∧ Lib (AxSet 0 [("title", "x vs. y, column-wise"); ("ylabel", "y")]) ∈ r.1
  ∧ (∀ a i, Lib (AxSet a (title_kw i)) ∉ r.1).
Proof.
  apply (X12_single_labels nat nat sample_rand matplotlib
           (sample_table 3) (sample_table 3) ["line"; "scatter"; "line"]).
  apply completed_last; vm_compute; reflexivity.
Defined.

Lemma X13_witness :
  let r := plot_columns sample_rand matplotlib "single"
             (sample_table 2) (sample_table 2) ["scatter"; "line"] in
  (∃ t, r.1 = t ++ [Lib PltShow] ∧ Lib PltShow ∉ t)
  ∧ drawn r.1 = plot_label <$> seq 0 (shape1 (sample_table 2))
  ∧ printed r.1 = [].
Proof.
  apply (X13_show_comes_last nat nat sample_rand matplotlib "single"
           (sample_table 2) (sample_table 2) ["scatter"; "line"]).
  destruct (completed_last nat nat
              (plot_columns sample_rand matplotlib "single"
                 (sample_table 2) (sample_table 2) ["scatter"; "line"]))
    as [H _]; [vm_compute; reflexivity..|exact H].
Defined.
